(** * mcp-server-fetch: a shallow embedding of [server.py]

    The fetch pipeline of [src/mcp_server_fetch/server.py]: the robots.txt
    check, the resource fetch with its HTML classification, and the windowing
    of the fetched content done by the [fetch] tool handler.

    Python strings are sequences of Unicode code points; they are modelled as
    lists of code points ([N]).  Python integers are unbounded: [Z]. *)

From Stdlib Require Import ZArith List Bool Ascii String.
From Stdlib Require Import DecimalString DecimalPos DecimalZ Lia.
Import ListNotations.

Open Scope Z_scope.

(** ** Python strings *)

Definition char := N.
Definition str := list char.

(** A string literal of the source. *)
Definition lit (s : string) : str := map N_of_ascii (list_ascii_of_string s).
Arguments lit s%_string.

(** [len(s)] *)
Definition len {A} (s : list A) : Z := Z.of_nat (List.length s).

(** Truthiness of a string: [if s] holds for the non-empty ones. *)
Definition truthy (s : str) : bool :=
  match s with [] => false | _ :: _ => true end.

(** [str(n)] and [f"{n}"] for an integer [n]. *)
Definition str_of_int (z : Z) : str := lit (NilZero.string_of_int (Z.to_int z)).

(** One bound of a slice, the way Python normalises it for a sequence of
    length [n]: a negative bound counts from the end, and both are clamped. *)
Definition slice_bound (n i : Z) : Z :=
  if i <? 0 then Z.max (i + n) 0 else Z.min i n.

(** [s[lo:hi]] *)
Definition py_slice {A} (s : list A) (lo hi : Z) : list A :=
  let n := len s in
  let lo' := slice_bound n lo in
  let hi' := slice_bound n hi in
  firstn (Z.to_nat (hi' - lo')) (skipn (Z.to_nat lo') s).

(** [s[:hi]] *)
Definition py_prefix {A} (s : list A) (hi : Z) : list A := py_slice s 0 hi.

(** [s.startswith(p)] *)
Fixpoint startswith (s p : str) {struct p} : bool :=
  match p, s with
  | [], _ => true
  | _ :: _, [] => false
  | a :: p', b :: s' => N.eqb a b && startswith s' p'
  end.

(** [p in s] for two strings: [p] occurs in [s] as a contiguous substring. *)
Fixpoint str_in (p s : str) : bool :=
  startswith s p ||
  match s with
  | [] => false
  | _ :: s' => str_in p s'
  end.

(** [sep.join(parts)] *)
Fixpoint join (sep : str) (parts : list str) : str :=
  match parts with
  | [] => []
  | [x] => x
  | x :: rest => x ++ sep ++ join sep rest
  end.

(** ** The result window of [call_tool] *)

Definition NO_MORE_CONTENT : str := lit "<error>No more content available.</error>".

(** The text appended at line 330, with [next_start] formatted in. *)
Definition truncation_hint (next_start : Z) : str :=
  lit "

<error>Content truncated. Call the fetch tool with a start_index of "
  ++ str_of_int next_start ++ lit " to get more content.</error>".

(** Lines 307-330 of [call_tool]: the value of [content] when the handler
    reaches its return statement, from the fetched [content] and the request's
    [start_index] and [max_length]. *)
Definition call_tool_window (content : str) (start_index max_length : Z) : str :=
  let original_length := len content in
  if start_index >=? original_length then NO_MORE_CONTENT
  else
    let truncated_content := py_slice content start_index (start_index + max_length) in
    if negb (truthy truncated_content) then NO_MORE_CONTENT
    else
      let actual_content_length := len truncated_content in
      let remaining_content := original_length - (start_index + actual_content_length) in
      if (actual_content_length =? max_length) && (remaining_content >? 0) then
        let next_start := start_index + actual_content_length in
        truncated_content ++ truncation_hint next_start
      else truncated_content.

(** Line 333: the text of the single [TextContent] the handler returns. *)
Definition call_tool_text (prefix url content : str) : str :=
  prefix ++ lit "Contents of " ++ url ++ lit ":
" ++ content.

(** ** More of Python's [str] *)

(** [c.isspace()]: the white space that [str.strip()] removes. *)
Definition is_space (c : char) : bool :=
  ((9 <=? c) && (c <=? 13) || (28 <=? c) && (c <=? 32)
   || (c =? 133) || (c =? 160) || (c =? 5760)
   || (8192 <=? c) && (c <=? 8202)
   || (c =? 8232) || (c =? 8233) || (c =? 8239) || (c =? 8287) || (c =? 12288))%N.

(** The line boundaries of [str.splitlines()]. *)
Definition is_linebreak (c : char) : bool :=
  ((10 <=? c) && (c <=? 13) || (28 <=? c) && (c <=? 30)
   || (c =? 133) || (c =? 8232) || (c =? 8233))%N.

Fixpoint lstrip (s : str) : str :=
  match s with
  | [] => []
  | c :: s' => if is_space c then lstrip s' else s
  end.

Definition rstrip (s : str) : str := rev (lstrip (rev s)).

(** [s.strip()] *)
Definition strip (s : str) : str := rstrip (lstrip s).

(** [s.splitlines()]: the lines without their line breaks; a carriage return
    followed by a line feed is one break, and a final break opens no line. *)
Fixpoint splitlines (s : str) : list str :=
  match s with
  | [] => []
  | c :: s' =>
      if is_linebreak c then
        [] :: (if (c =? 13)%N
               then match s' with
                    | d :: s'' => if (d =? 10)%N then splitlines s'' else splitlines s'
                    | [] => splitlines s'
                    end
               else splitlines s')
      else
        match splitlines s' with
        | [] => [[c]]
        | l :: ls => (c :: l) :: ls
        end
  end.

(** [a or b] on an optional string: [a] when it is neither [None] nor empty. *)
Definition py_or (a : option str) (b : str) : str :=
  match a with
  | Some s => if truthy s then s else b
  | None => b
  end.

(** ** [urllib.parse] *)

Record ParseResult := mkParseResult {
  scheme : str;
  netloc : str;
  path : str;
  params : str;
  query : str;
  fragment : str
}.

(** The schemes of [urllib.parse.uses_netloc] (the empty one apart). *)
Definition uses_netloc : list str :=
  [lit "ftp"; lit "http"; lit "gopher"; lit "nntp"; lit "telnet"; lit "imap";
   lit "wais"; lit "file"; lit "mms"; lit "https"; lit "shttp"; lit "snews";
   lit "prospero"; lit "rtsp"; lit "rtsps"; lit "rtspu"; lit "rsync"; lit "svn";
   lit "svn+ssh"; lit "sftp"; lit "nfs"; lit "git"; lit "git+ssh"; lit "ws";
   lit "wss"; lit "itms-services"].

Definition str_eqb (a b : str) : bool :=
  if list_eq_dec N.eq_dec a b then true else false.

Definition mem_str (x : str) (l : list str) : bool := existsb (str_eqb x) l.

(** [urlunsplit((scheme, netloc, url, query, fragment))] *)
Definition urlunsplit (scheme netloc url query fragment : str) : str :=
  let url :=
    if truthy netloc
       || (truthy scheme && mem_str scheme uses_netloc
           && negb (str_eqb (py_prefix url 2) (lit "//")))
    then
      let url := if truthy url && negb (str_eqb (py_prefix url 1) (lit "/"))
                 then lit "/" ++ url else url in
      lit "//" ++ netloc ++ url
    else url in
  let url := if truthy scheme then scheme ++ lit ":" ++ url else url in
  let url := if truthy query then url ++ lit "?" ++ query else url in
  let url := if truthy fragment then url ++ lit "#" ++ fragment else url in
  url.

(** [urlunparse((scheme, netloc, url, params, query, fragment))] *)
Definition urlunparse (scheme netloc url params query fragment : str) : str :=
  let url := if truthy params then url ++ lit ";" ++ params else url in
  urlunsplit scheme netloc url query fragment.

(** ** The HTTP exchange *)

(** The arguments of one [client.get] call of the source. [req_timeout] is the
    [timeout] keyword when the call passes one. *)
Record Request := mkRequest {
  req_url : str;
  req_follow_redirects : bool;
  req_user_agent : str;
  req_timeout : option Z
}.

(** What the handlers read of an [httpx] response; [content_type] is the
    header as [response.headers] has it, [None] when absent. *)
Record Response := mkResponse {
  status_code : Z;
  text : str;
  content_type : option str
}.

(** [client.get] returns a response, raises an [HTTPError] [e], of which
    the handlers use [str(e)] and [repr(e)], or raises an exception that is
    no [HTTPError] ([httpx.InvalidURL] for one), which [except HTTPError]
    lets through. *)
Inductive Outcome :=
| Responded (response : Response)
| HTTPError (e_str e_repr : str)
| OtherException (exc : str).

(** A handler as the tree of its network calls. *)
Inductive Prog (A : Type) : Type :=
| Ret (a : A)
| Get (req : Request) (k : Outcome -> Prog A).
Arguments Ret {A} a.
Arguments Get {A} req k.

Inductive ErrorCode := INVALID_PARAMS | INTERNAL_ERROR.

Record ErrorData := mkErrorData { code : ErrorCode; message : str }.

(** A call returns, raises [McpError(ErrorData(...))], or ends with another
    exception that nothing caught. *)
Inductive result (A : Type) : Type :=
| Ok (a : A)
| McpError (e : ErrorData)
| Uncaught (exc : str).
Arguments Ok {A} a.
Arguments McpError {A} e.
Arguments Uncaught {A} exc.

Definition M (A : Type) : Type := Prog (result A).

Fixpoint prog_bind {A B} (p : Prog A) (f : A -> Prog B) : Prog B :=
  match p with
  | Ret a => f a
  | Get req k => Get req (fun o => prog_bind (k o) f)
  end.

(** Sequencing: what [m] raises propagates. *)
Definition bind {A B} (m : M A) (f : A -> M B) : M B :=
  prog_bind m (fun r => match r with
                        | Ok a => f a
                        | McpError e => Ret (McpError e)
                        | Uncaught exc => Ret (Uncaught exc)
                        end).

Definition ret {A} (a : A) : M A := Ret (Ok a).
Definition raise {A} (c : ErrorCode) (msg : str) : M A :=
  Ret (McpError (mkErrorData c msg)).

Notation "x <- m ;; f" := (bind m (fun x => f))
  (at level 61, m at next level, right associativity).
Notation "m ;;; f" := (bind m (fun _ => f))
  (at level 61, right associativity).

(** Replays a handler against the outcomes of its network calls, one per call
    and in order: the value it ends with and the requests it made. *)
Fixpoint exec {A} (p : Prog A) (outcomes : list Outcome) : option (A * list Request) :=
  match p with
  | Ret a => match outcomes with [] => Some (a, []) | _ :: _ => None end
  | Get req k =>
      match outcomes with
      | [] => None
      | o :: rest =>
          match exec (k o) rest with
          | Some (a, reqs) => Some (a, req :: reqs)
          | None => None
          end
      end
  end.

(** Every request the handler can make, whatever the network answers. *)
Fixpoint all_requests {A} (P : Request -> Prop) (p : Prog A) : Prop :=
  match p with
  | Ret _ => True
  | Get req k => P req /\ forall o, all_requests P (k o)
  end.

(** ** The libraries the handlers call *)

(** The [arguments] of a tool call: each key of the [Fetch] model, when the
    dictionary has it. *)
Record FetchArguments := mkFetchArguments {
  arg_url : option str;
  arg_max_length : option Z;
  arg_start_index : option Z;
  arg_raw : option bool
}.

(** The third-party functions of the source, taken as they are:
    [Protego.parse] and [can_fetch], [simple_json_from_html_string(html,
    use_readability=True)["content"]] ([None] when there is none),
    [markdownify(..., heading_style=ATX)], [urlparse], and the validation of
    the [url] argument by [AnyUrl] followed by [str], with the text of the
    error raised for arguments that fail the validation. *)
Class Libraries := {
  Rules : Type;
  Protego_parse : str -> Rules;
  can_fetch : Rules -> str -> str -> bool;
  simple_json_content : str -> option str;
  markdownify : str -> str;
  urlparse : str -> ParseResult;
  AnyUrl : str -> option str;
  validation_error : FetchArguments -> str
}.

(** ** The handlers of [server.py] *)

Definition DEFAULT_USER_AGENT_AUTONOMOUS : str :=
  lit "ModelContextProtocol/1.0 (Autonomous; +https://github.com/modelcontextprotocol/servers)".
Definition DEFAULT_USER_AGENT_MANUAL : str :=
  lit "ModelContextProtocol/1.0 (User-Specified; +https://github.com/modelcontextprotocol/servers)".

Definition SIMPLIFY_FAILED : str :=
  lit "<error>Page failed to be simplified from HTML</error>".

Definition extract_content_from_html `{Libraries} (html : str) : str :=
  match simple_json_content html with
  | Some content => if truthy content then markdownify content else SIMPLIFY_FAILED
  | None => SIMPLIFY_FAILED
  end.

Definition get_robots_txt_url `{Libraries} (url : str) : str :=
  let parsed := urlparse url in
  urlunparse (scheme parsed) (netloc parsed) (lit "/robots.txt") [] [] [].

(** The request of lines 94-98. *)
Definition robots_request (robot_txt_url user_agent : str) : Request :=
  {| req_url := robot_txt_url; req_follow_redirects := true;
     req_user_agent := user_agent; req_timeout := None |}.

Definition robots_unreachable_message (robot_txt_url : str) : str :=
  lit "Failed to fetch robots.txt " ++ robot_txt_url ++ lit " due to a connection issue".

Definition robots_status_message (robot_txt_url : str) (status : Z) : str :=
  lit "When fetching robots.txt (" ++ robot_txt_url ++ lit "), received status "
  ++ str_of_int status
  ++ lit " so assuming that autonomous fetching is not allowed, the user can try manually fetching by using the fetch prompt".

Definition robots_disallow_message (robot_txt_url user_agent url robot_txt : str) : str :=
  lit "The sites robots.txt (" ++ robot_txt_url
  ++ lit "), specifies that autonomous fetching of this page is not allowed, "
  ++ lit "<useragent>" ++ user_agent ++ lit "</useragent>
"
  ++ lit "<url>" ++ url ++ lit "</url>"
  ++ lit "<robots>
" ++ robot_txt ++ lit "
</robots>
"
  ++ lit "The assistant must let the user know that it failed to view the page. The assistant may provide further guidance based on the above information.
"
  ++ lit "The assistant can tell the user that they can try manually fetching the page by using the fetch prompt within their UI.".

(** [line.strip().startswith("#")] *)
Definition is_comment_line (line : str) : bool := startswith (strip line) (lit "#").

(** Lines 118-120: [processed_robot_txt]. *)
Definition processed_robot_txt (robot_txt : str) : str :=
  join (lit "
") (filter (fun line => negb (is_comment_line line)) (splitlines robot_txt)).

Definition check_may_autonomously_fetch_url `{Libraries} (url user_agent : str) : M unit :=
  let robot_txt_url := get_robots_txt_url url in
  Get (robots_request robot_txt_url user_agent) (fun outcome =>
    match outcome with
    | HTTPError _ _ =>
        raise INTERNAL_ERROR (robots_unreachable_message robot_txt_url)
    | OtherException exc => Ret (Uncaught exc)
    | Responded response =>
        if (status_code response =? 401) || (status_code response =? 403) then
          raise INTERNAL_ERROR
                (robots_status_message robot_txt_url (status_code response))
        else if (400 <=? status_code response) && (status_code response <? 500) then
          ret tt
        else
          let robot_txt := text response in
          let robot_parser := Protego_parse (processed_robot_txt robot_txt) in
          if negb (can_fetch robot_parser url user_agent) then
            raise INTERNAL_ERROR
                  (robots_disallow_message robot_txt_url user_agent url robot_txt)
          else ret tt
    end).

(** The request of lines 154-159. *)
Definition fetch_request (url user_agent : str) : Request :=
  {| req_url := url; req_follow_redirects := true;
     req_user_agent := user_agent; req_timeout := Some 30 |}.

(** [response.headers.get("content-type", "")] *)
Definition headers_get_content_type (response : Response) : str :=
  match content_type response with
  | Some v => v
  | None => []
  end.

(** Lines 176-178. *)
Definition is_page_html (page_raw content_type : str) : bool :=
  str_in (lit "<html") (py_prefix page_raw 100)
  || str_in (lit "text/html") content_type
  || negb (truthy content_type).

Definition raw_prefix (content_type : str) : str :=
  lit "Content type " ++ content_type
  ++ lit " cannot be simplified to markdown, but here is the raw content:
".

(** Returns [(content, prefix)]. *)
Definition fetch_url `{Libraries} (url user_agent : str) (force_raw : bool)
  : M (str * str) :=
  Get (fetch_request url user_agent) (fun outcome =>
    match outcome with
    | HTTPError _ e_repr =>
        raise INTERNAL_ERROR (lit "Failed to fetch " ++ url ++ lit ": " ++ e_repr)
    | OtherException exc => Ret (Uncaught exc)
    | Responded response =>
        if status_code response >=? 400 then
          raise INTERNAL_ERROR
                (lit "Failed to fetch " ++ url ++ lit " - status code "
                 ++ str_of_int (status_code response))
        else
          let page_raw := text response in
          let content_type := headers_get_content_type response in
          if is_page_html page_raw content_type && negb force_raw then
            ret (extract_content_from_html page_raw, [])
          else
            ret (page_raw, raw_prefix content_type)
    end).

(** The [Fetch] model, once validated. *)
Record Fetch := mkFetch {
  url : str;
  max_length : Z;
  start_index : Z;
  raw : bool
}.

Definition or_default {A} (o : option A) (d : A) : A :=
  match o with Some a => a | None => d end.

(** The [Fetch] model built from the arguments: the defaults and bounds of
    its fields; [None] stands for the [ValueError] of a failed validation. *)
Definition Fetch_validate `{Libraries} (arguments : FetchArguments) : option Fetch :=
  match arg_url arguments with
  | None => None
  | Some u =>
      match AnyUrl u with
      | None => None
      | Some u' =>
          let m := or_default (arg_max_length arguments) 5000 in
          let s := or_default (arg_start_index arguments) 0 in
          if (0 <? m) && (m <? 1000000) && (0 <=? s) then
            Some {| url := u'; max_length := m; start_index := s;
                    raw := or_default (arg_raw arguments) false |}
          else None
      end
  end.

(** The parameters of [serve] that the handlers close over. *)
Record Config := mkConfig {
  custom_user_agent : option str;
  ignore_robots_txt : bool
}.

Definition user_agent_autonomous (cfg : Config) : str :=
  py_or (custom_user_agent cfg) DEFAULT_USER_AGENT_AUTONOMOUS.
Definition user_agent_manual (cfg : Config) : str :=
  py_or (custom_user_agent cfg) DEFAULT_USER_AGENT_MANUAL.

Record TextContent := mkTextContent { type : str; text_of : str }.

Definition call_tool `{Libraries} (cfg : Config) (name : str)
  (arguments : FetchArguments) : M (list TextContent) :=
  match Fetch_validate arguments with
  | None => raise INVALID_PARAMS (validation_error arguments)
  | Some args =>
      let url := url args in
      if negb (truthy url) then raise INVALID_PARAMS (lit "URL is required")
      else
        (if negb (ignore_robots_txt cfg)
         then check_may_autonomously_fetch_url url (user_agent_autonomous cfg)
         else ret tt) ;;;
        r <- fetch_url url (user_agent_autonomous cfg) (raw args) ;;
        let '(content, prefix) := r in
        let content := call_tool_window content (start_index args) (max_length args) in
        ret [ {| type := lit "text"; text_of := call_tool_text prefix url content |} ]
  end.

Record PromptMessage := mkPromptMessage { role : str; content_of : TextContent }.
Record GetPromptResult := mkGetPromptResult {
  description : str;
  messages : list PromptMessage
}.

(** [arguments["url"]] in a dictionary given by its items. *)
Fixpoint dict_get (d : list (str * str)) (key : str) : option str :=
  match d with
  | [] => None
  | (k, v) :: d' => if str_eqb k key then Some v else dict_get d' key
  end.

Definition get_prompt `{Libraries} (cfg : Config) (name : str)
  (arguments : option (list (str * str))) : M GetPromptResult :=
  match arguments with
  | None => raise INVALID_PARAMS (lit "URL is required")
  | Some d =>
      match dict_get d (lit "url") with
      | None => raise INVALID_PARAMS (lit "URL is required")
      | Some url =>
          prog_bind (fetch_url url (user_agent_manual cfg) false) (fun r =>
            match r with
            | McpError e =>
                ret {| description := lit "Failed to fetch " ++ url;
                       messages := [ {| role := lit "user";
                                        content_of := {| type := lit "text";
                                                         text_of := message e |} |} ] |}
            | Ok (content, prefix) =>
                ret {| description := lit "Contents of " ++ url;
                       messages := [ {| role := lit "user";
                                        content_of := {| type := lit "text";
                                                         text_of := prefix ++ content |} |} ] |}
            | Uncaught exc => Ret (Uncaught exc)
            end)
      end
  end.

(** ** A reference instance of the libraries

    Used to run the handlers on concrete inputs.  [urlparse_model] follows
    [urllib.parse.urlsplit] and [urlparse] on URLs for which they raise no
    [ValueError]; [example_can_fetch] is a parser for the one rule the examples
    need, a blanket [Disallow: /]. *)

Definition is_alpha (c : char) : bool :=
  ((65 <=? c) && (c <=? 90) || (97 <=? c) && (c <=? 122))%N.

Definition is_scheme_char (c : char) : bool :=
  (is_alpha c || (48 <=? c) && (c <=? 57) || (c =? 43) || (c =? 45) || (c =? 46))%N.

Definition lower (c : char) : char :=
  (if (65 <=? c) && (c <=? 90) then c + 32 else c)%N.

(** [url.lstrip] of the C0 control characters and the space. *)
Fixpoint lstrip_c0 (s : str) : str :=
  match s with
  | [] => []
  | c :: s' => if (c <=? 32)%N then lstrip_c0 s' else s
  end.

(** The text before the first character satisfying [p], and the text from it. *)
Fixpoint break (p : char -> bool) (s : str) : str * str :=
  match s with
  | [] => ([], [])
  | c :: s' => if p c then ([], s)
               else let (a, b) := break p s' in (c :: a, b)
  end.

(** [s.split(c, 1)] as a pair, the second part empty when [c] is absent. *)
Definition split_once (c : char) (s : str) : str * str :=
  let (a, b) := break (N.eqb c) s in (a, tl b).

Definition uses_params : list str :=
  [[]; lit "ftp"; lit "hdl"; lit "prospero"; lit "http"; lit "imap";
   lit "https"; lit "shttp"; lit "rtsp"; lit "rtsps"; lit "rtspu"; lit "sip";
   lit "sips"; lit "mms"; lit "sftp"; lit "tel"].

(** [_splitparams]: the parameters after the first [;] of the last path segment. *)
Definition splitparams (url : str) : str * str :=
  let (base_rev, dir_rev) := break (N.eqb 47%N) (rev url) in
  let (seg, rest) := break (N.eqb 59%N) (rev base_rev) in
  match rest with
  | [] => (url, [])
  | _ :: prm => (rev dir_rev ++ seg, prm)
  end.

Definition urlparse_model (url : str) : ParseResult :=
  let url := filter (fun c => negb ((c =? 9) || (c =? 10) || (c =? 13))%N)
                    (lstrip_c0 url) in
  let (sch, rest) := break (N.eqb 58%N) url in
  let '(scheme, url) :=
    match rest, sch with
    | _ :: after, c0 :: _ =>
        if is_alpha c0 && forallb is_scheme_char sch
        then (map lower sch, after) else ([], url)
    | _, _ => ([], url)
    end in
  let '(netloc, url) :=
    if startswith url (lit "//")
    then break (fun c => (c =? 47) || (c =? 63) || (c =? 35))%N (skipn 2 url)
    else ([], url) in
  let '(url, fragment) := split_once 35%N url in
  let '(url, query) := split_once 63%N url in
  let '(url, params) :=
    if mem_str scheme uses_params && str_in (lit ";") url
    then splitparams url else (url, []) in
  {| scheme := scheme; netloc := netloc; path := url;
     params := params; query := query; fragment := fragment |}.

Definition example_can_fetch (rules : list str) (url user_agent : str) : bool :=
  negb (existsb (fun line => str_eqb (strip line) (lit "Disallow: /")) rules).

Definition example_libraries : Libraries :=
  {| Rules := list str;
     Protego_parse := splitlines;
     can_fetch := example_can_fetch;
     simple_json_content := fun html => Some html;
     markdownify := fun html => html;
     urlparse := urlparse_model;
     AnyUrl := fun u => Some u;
     validation_error := fun _ => lit "validation error" |}.

(** Inputs for the examples. *)

Definition example_url : str := lit "http://example.com/page".

Definition example_robots_deny : str := lit "# comment
User-agent: *
Disallow: /
".


Definition example_page : Response :=
  {| status_code := 200; text := lit "<html>Hello</html>";
     content_type := Some (lit "text/html") |}.

Definition robots_response (status : Z) (body : str) : Response :=
  {| status_code := status; text := body; content_type := Some (lit "text/plain") |}.

Definition example_config : Config :=
  {| custom_user_agent := None; ignore_robots_txt := false |}.

Definition custom_config : Config :=
  {| custom_user_agent := Some (lit "ExampleBot/2.0"); ignore_robots_txt := false |}.

(** A call with [start_index] at the end of the 18 characters of
    [example_page]. *)
Definition example_arguments_at_end : FetchArguments :=
  {| arg_url := Some example_url; arg_max_length := None;
     arg_start_index := Some 18; arg_raw := None |}.

Definition example_args_at_end : Fetch :=
  {| url := example_url; max_length := 5000; start_index := 18; raw := false |}.

(** More inputs: the libraries with an extraction that finds nothing, a
    configuration without the robots check, and a call from the start of the
    content. *)

Definition no_extraction_libraries : Libraries :=
  {| Rules := list str;
     Protego_parse := splitlines;
     can_fetch := example_can_fetch;
     simple_json_content := fun html => None;
     markdownify := fun html => html;
     urlparse := urlparse_model;
     AnyUrl := fun u => Some u;
     validation_error := fun _ => lit "validation error" |}.

Definition ignore_config : Config :=
  {| custom_user_agent := None; ignore_robots_txt := true |}.

Definition example_arguments : FetchArguments :=
  {| arg_url := Some example_url; arg_max_length := None;
     arg_start_index := None; arg_raw := None |}.

Definition example_args : Fetch :=
  {| url := example_url; max_length := 5000; start_index := 0; raw := false |}.

Definition example_json : Response :=
  {| status_code := 200; text := lit "{}";
     content_type := Some (lit "application/json") |}.

Definition example_prompt_arguments : option (list (str * str)) :=
  Some [(lit "url", example_url)].

(** ** [concat.py]

    The directory tree [os.walk] sees: a file with its name, the size
    [os.path.getsize] reports and what reading it gives (its text, or the
    text of the exception raised), or a directory with its name and entries in
    listing order.  Symbolic links are left out. *)

Local Unset Elimination Schemes.
Inductive Entry :=
| FileEntry (name : str) (size : Z) (contents : str + str)
| DirEntry (name : str) (entries : list Entry).
Local Set Elimination Schemes.

(** Induction on a tree, with the hypothesis for every entry of a directory. *)
Fixpoint Entry_nested_ind (P : Entry -> Prop)
  (Hfile : forall n size contents, P (FileEntry n size contents))
  (Hdir : forall n entries, Forall P entries -> P (DirEntry n entries))
  (e : Entry) : P e :=
  match e with
  | FileEntry n size contents => Hfile n size contents
  | DirEntry n entries =>
      Hdir n entries
        ((fix all (es : list Entry) : Forall P es :=
            match es with
            | [] => Forall_nil P
            | x :: rest => Forall_cons x (Entry_nested_ind P Hfile Hdir x) (all rest)
            end) entries)
  end.

Definition ends_with_slash (a : str) : bool :=
  match rev a with
  | c :: _ => (c =? 47)%N
  | [] => false
  end.

(** [os.path.join(a, b)] *)
Definition os_path_join (a b : str) : str :=
  if startswith b (lit "/") then b
  else if negb (truthy a) || ends_with_slash a then a ++ b
  else a ++ lit "/" ++ b.

Definition DEFAULT_TARGET_FILES : list str :=
  [lit "__init__.py"; lit "__main__.py"; lit "server.py"; lit "Dockerfile";
   lit "pyproject.toml"].

Definition DEFAULT_EXCLUDE_DIRS : list str :=
  [lit "__pycache__"; lit ".git"; lit ".venv"; lit "build"; lit "dist";
   lit ".idea"; lit ".vscode"].

(** The body of the inner loop, lines 27-43: what one entry of [filenames]
    adds to the output file. [abspath] is [os.path.abspath] and [script_path]
    the path of the script itself. *)
Definition file_block (abspath : str -> str) (script_path : str)
  (target_files : list str) (dirpath : str) (e : Entry) : str :=
  match e with
  | DirEntry _ _ => []
  | FileEntry filename size contents =>
      if negb (mem_str filename target_files) then []
      else
        let file_path := os_path_join dirpath filename in
        if str_eqb (abspath file_path) script_path || (size =? 0) then []
        else
          lit "# File: " ++ file_path ++ lit "
" ++ match contents with
     | inl content => content ++ lit "

"
     | inr e => lit "# Error reading " ++ file_path ++ lit ": " ++ e ++ lit "

"
     end
  end.

(** The loop over [os.walk(root_dir)], lines 22-43: the files of a directory
    first, then its directories that are not excluded, in order. *)
Fixpoint walk_output (abspath : str -> str) (script_path : str)
  (target_files exclude_dirs : list str) (dirpath : str) (e : Entry) : str :=
  match e with
  | FileEntry _ _ _ => []
  | DirEntry _ entries =>
      flat_map (file_block abspath script_path target_files dirpath) entries
      ++ flat_map
           (fun child =>
              match child with
              | DirEntry d _ =>
                  if mem_str d exclude_dirs then []
                  else walk_output abspath script_path target_files exclude_dirs
                                   (os_path_join dirpath d) child
              | FileEntry _ _ _ => []
              end) entries
  end.

(** The text [concatenate_files] writes to [output_file], for the tree [root]
    found at [root_dir]. *)
Definition concatenate_files (abspath : str -> str) (script_path : str)
  (root_dir : str) (root : Entry)
  (target_files exclude_dirs : option (list str)) : str :=
  walk_output abspath script_path
              (or_default target_files DEFAULT_TARGET_FILES)
              (or_default exclude_dirs DEFAULT_EXCLUDE_DIRS)
              root_dir root.

(** The tree with every excluded directory emptied. *)
Fixpoint empty_excluded (exclude_dirs : list str) (e : Entry) : Entry :=
  match e with
  | FileEntry _ _ _ => e
  | DirEntry n entries =>
      DirEntry n
        (map (fun child =>
                match child with
                | DirEntry d _ =>
                    if mem_str d exclude_dirs then DirEntry d []
                    else empty_excluded exclude_dirs child
                | FileEntry _ _ _ => child
                end) entries)
  end.

(** An entry the inner loop does not skip for its name or its size. *)
Definition selected (target_files : list str) (e : Entry) : bool :=
  match e with
  | FileEntry filename size _ => mem_str filename target_files && negb (size =? 0)
  | DirEntry _ _ => true
  end.

(** The tree without the files that are no targets or are empty. *)
Fixpoint only_selected (target_files : list str) (e : Entry) : Entry :=
  match e with
  | FileEntry _ _ _ => e
  | DirEntry n entries =>
      DirEntry n
        ((fix keep (es : list Entry) : list Entry :=
            match es with
            | [] => []
            | child :: rest =>
                if selected target_files child
                then only_selected target_files child :: keep rest
                else keep rest
            end) entries)
  end.

Definition example_tree : Entry :=
  DirEntry (lit "repo")
    [ FileEntry (lit "pyproject.toml") 12 (inl (lit "[project]"));
      FileEntry (lit "README.md") 7 (inl (lit "# fetch"));
      DirEntry (lit ".git") [ FileEntry (lit "server.py") 3 (inl (lit "git")) ];
      DirEntry (lit "src")
        [ FileEntry (lit "__init__.py") 0 (inl []);
          FileEntry (lit "server.py") 9 (inl (lit "import os")) ] ].

(** A robots text with an indented comment line and a rule that carries a
    comment on its own line. *)
Definition example_robots_indented : str := lit "  # the rules
User-agent: *   # all agents
Disallow: /
".

(** ** Specification vocabulary *)

(** [p] occurs in [s] as a contiguous run of characters. *)
Definition Contains (p s : str) : Prop := exists pre post, s = pre ++ p ++ post.

(** A line whose first character after leading white space is [#]. *)
Definition comment_line (line : str) : Prop :=
  exists ws rest,
    line = ws ++ 35%N :: rest /\ Forall (fun c => is_space c = true) ws.

(** A line holds no line boundary. *)
Definition no_break (l : str) : Prop := Forall (fun c => is_linebreak c = false) l.

(** ** Slices *)

Lemma len_nonneg {A} (s : list A) : 0 <= len s.
Proof. unfold len. lia. Qed.

Lemma len_app {A} (s t : list A) : len (s ++ t) = len s + len t.
Proof. unfold len. rewrite length_app. lia. Qed.

Lemma len_nil_iff {A} (s : list A) : len s = 0 <-> s = [].
Proof.
  unfold len. split.
  - destruct s; [reflexivity | simpl; lia].
  - intros ->. reflexivity.
Qed.

(** Within the validated range of the request, a slice is the plain
    [skip then take] and its length is the clipped one. *)
Lemma py_slice_nonneg {A} (s : list A) (lo hi : Z) :
  0 <= lo -> lo <= hi ->
  py_slice s lo hi
  = firstn (Z.to_nat (Z.min hi (len s) - Z.min lo (len s)))
           (skipn (Z.to_nat (Z.min lo (len s))) s).
Proof.
  intros Hlo Hhi. unfold py_slice, slice_bound.
  destruct (Z.ltb_spec lo 0); [lia|].
  destruct (Z.ltb_spec hi 0); [lia|].
  reflexivity.
Qed.

Lemma len_py_slice {A} (s : list A) (lo hi : Z) :
  0 <= lo -> lo <= hi ->
  len (py_slice s lo hi) = Z.min hi (len s) - Z.min lo (len s).
Proof.
  intros Hlo Hhi. rewrite py_slice_nonneg by assumption.
  unfold len. rewrite length_firstn, length_skipn. lia.
Qed.

Lemma truthy_len (s : str) : truthy s = true <-> 0 < len s.
Proof.
  unfold len. destruct s; simpl; split; intros; try lia; try discriminate; reflexivity.
Qed.

Lemma truncation_hint_head (n : Z) :
  exists rest, truncation_hint n = 10%N :: rest.
Proof. unfold truncation_hint. simpl. eexists. reflexivity. Qed.

Lemma truncation_hint_nonempty (n : Z) : 0 < len (truncation_hint n).
Proof.
  destruct (truncation_hint_head n) as [rest ->]. unfold len. simpl. lia.
Qed.

Lemma app_hint_neq (s : str) (n : Z) : s ++ truncation_hint n <> s.
Proof.
  intros H. apply (f_equal len) in H. rewrite len_app in H.
  pose proof (truncation_hint_nonempty n). lia.
Qed.

Lemma NO_MORE_CONTENT_not_hint (n : Z) : NO_MORE_CONTENT <> truncation_hint n.
Proof.
  destruct (truncation_hint_head n) as [rest ->]. discriminate.
Qed.

(** ** Integers print injectively *)

Lemma lit_inj (a b : string) : lit a = lit b -> a = b.
Proof.
  unfold lit. intros H.
  rewrite <- (string_of_list_ascii_of_string a), <- (string_of_list_ascii_of_string b).
  f_equal.
  revert H. generalize (list_ascii_of_string a) (list_ascii_of_string b).
  induction l as [|x l IH]; intros [|y l']; simpl; intros H; try discriminate.
  - reflexivity.
  - injection H as Hx Hl. f_equal.
    + rewrite <- (ascii_N_embedding x), <- (ascii_N_embedding y), Hx. reflexivity.
    + apply IH, Hl.
Qed.

Lemma to_int_proper (z : Z) :
  Z.to_int z <> Decimal.Pos Decimal.Nil /\ Z.to_int z <> Decimal.Neg Decimal.Nil.
Proof.
  destruct z as [|p|p]; simpl; split; try discriminate;
    intros H; injection H as H; exact (Unsigned.to_uint_nonnil p H).
Qed.

Lemma str_of_int_inj (a b : Z) : str_of_int a = str_of_int b -> a = b.
Proof.
  unfold str_of_int. intros H. apply lit_inj in H.
  destruct (to_int_proper a) as [Ha1 Ha2], (to_int_proper b) as [Hb1 Hb2].
  pose proof (NilZero.isi _ Ha1 Ha2) as Ia.
  pose proof (NilZero.isi _ Hb1 Hb2) as Ib.
  rewrite H in Ia. rewrite Ia in Ib. injection Ib as Hab.
  apply DecimalZ.to_int_inj, Hab.
Qed.

Lemma truncation_hint_inj (a b : Z) : truncation_hint a = truncation_hint b -> a = b.
Proof.
  unfold truncation_hint. intros H.
  apply app_inv_head in H. apply app_inv_tail in H.
  apply str_of_int_inj, H.
Qed.

(** ** The window of [call_tool] *)

(** The three ways through lines 310-330 for a validated request. *)
Lemma call_tool_window_cases (content : str) (start_index max_length : Z) :
  0 < max_length -> 0 <= start_index ->
  let slice := py_slice content start_index (start_index + max_length) in
  (len content <= start_index /\ slice = []
   /\ call_tool_window content start_index max_length = NO_MORE_CONTENT)
  \/ (start_index + max_length < len content /\ len slice = max_length
      /\ call_tool_window content start_index max_length
         = slice ++ truncation_hint (start_index + max_length))
  \/ (start_index < len content <= start_index + max_length
      /\ len slice = len content - start_index
      /\ call_tool_window content start_index max_length = slice).
Proof.
  intros Hm Hs slice.
  assert (Hlen : len slice = Z.min (start_index + max_length) (len content)
                             - Z.min start_index (len content))
    by (apply len_py_slice; lia).
  unfold call_tool_window. fold slice.
  destruct (Z.geb_spec start_index (len content)) as [Hge|Hlt].
  - left. split; [lia | split; [apply len_nil_iff; lia | reflexivity]].
  - right.
    destruct (truthy slice) eqn:Htr.
    2:{ exfalso. assert (0 < len slice) by lia.
        apply truthy_len in H. congruence. }
    simpl.
    destruct (Z.eqb_spec (len slice) max_length) as [Heq|Hne]; simpl.
    + destruct (Z.gtb_spec (len content - (start_index + len slice)) 0) as [Hrem|Hrem].
      * left. rewrite Heq. split; [lia | split; [lia | reflexivity]].
      * right. split; [lia | split; [lia | reflexivity]].
    + right. split; [lia | split; [lia | reflexivity]].
Qed.

Lemma len_truncation_hint_lower (n : Z) : len NO_MORE_CONTENT < len (truncation_hint n).
Proof.
  unfold truncation_hint. rewrite !len_app.
  pose proof (len_nonneg (str_of_int n)).
  change (len NO_MORE_CONTENT) with 41.
  match goal with |- _ < len ?a + (_ + len ?b) =>
    change (len a) with 70; change (len b) with 29 end.
  lia.
Qed.

Lemma NO_MORE_CONTENT_no_hint (pre : str) (n : Z) :
  NO_MORE_CONTENT <> pre ++ truncation_hint n.
Proof.
  intros H. apply (f_equal len) in H. rewrite len_app in H.
  pose proof (len_truncation_hint_lower n). pose proof (len_nonneg pre). lia.
Qed.

(** C1: for a validated request whose [start_index] lies inside the content,
    the handler appends the truncation hint, which then names the next start
    index [start_index + max_length], exactly when the slice
    [content[start_index : start_index + max_length]] has [max_length]
    characters and [start_index + max_length < len(content)]; a slice shorter
    than [max_length] is returned as it is. *)
Theorem call_tool_window_hint_iff (content : str) (start_index max_length : Z) :
  0 < max_length -> 0 <= start_index -> start_index < len content ->
  let slice := py_slice content start_index (start_index + max_length) in
  let out := call_tool_window content start_index max_length in
  ((exists next_start, out = slice ++ truncation_hint next_start)
   <-> len slice = max_length /\ start_index + max_length < len content)
  /\ (forall next_start, out = slice ++ truncation_hint next_start ->
        next_start = start_index + max_length)
  /\ (len slice = max_length /\ start_index + max_length < len content ->
        out = slice ++ truncation_hint (start_index + max_length))
  /\ (~ (len slice = max_length /\ start_index + max_length < len content) ->
        out = slice)
  /\ (len slice < max_length -> out = slice).
Proof.
  intros Hm Hs Hin slice out.
  destruct (call_tool_window_cases content start_index max_length Hm Hs)
    as [(Hout & Hlen & Hw) | [(Hmore & Hlen & Hw) | (Hend & Hlen & Hw)]];
    fold slice in Hlen, Hw; fold out in Hw.
  - lia.
  - split; [|split; [|split; [|split]]].
    + split; [intros _; split; assumption | intros _; eexists; exact Hw].
    + intros n Hn. rewrite Hw in Hn. apply app_inv_head in Hn.
      symmetry. apply truncation_hint_inj, Hn.
    + intros _. exact Hw.
    + intros Hnot. exfalso. apply Hnot. split; assumption.
    + intros Hshort. lia.
  - assert (Hno : forall n, out <> slice ++ truncation_hint n).
    { intros n Hn. rewrite Hw in Hn. symmetry in Hn.
      exact (app_hint_neq _ _ Hn). }
    split; [|split; [|split; [|split]]].
    + split; [intros [n Hn]; exfalso; exact (Hno n Hn) | intros [_ Hlt]; lia].
    + intros n Hn. exfalso. exact (Hno n Hn).
    + intros [_ Hlt]. lia.
    + intros _. exact Hw.
    + intros _. exact Hw.
Qed.

Lemma call_tool_window_hint_iff_witness :
  0 < 10 /\ 0 <= 0 /\ 0 < len (lit "Hello world string of length 50")
  /\ call_tool_window (lit "Hello world string of length 50") 0 10
     = lit "Hello worl" ++ truncation_hint 10.
Proof.
  split; [reflexivity|]. split; [discriminate|]. split; [reflexivity|].
  apply (call_tool_window_hint_iff (lit "Hello world string of length 50") 0 10);
    [reflexivity | discriminate | reflexivity |].
  split; reflexivity.
Defined.

(** C2: for a validated request, when [start_index] is at or past the end of
    the content, or the slice is empty, the handler's content is the
    sentinel [<error>No more content available.</error>], and it carries no
    truncation hint, hence no next start index. *)
Theorem call_tool_window_no_more_content (content : str) (start_index max_length : Z) :
  0 < max_length -> 0 <= start_index ->
  len content <= start_index
  \/ py_slice content start_index (start_index + max_length) = [] ->
  call_tool_window content start_index max_length = NO_MORE_CONTENT
  /\ forall pre next_start,
       call_tool_window content start_index max_length
       <> pre ++ truncation_hint next_start.
Proof.
  intros Hm Hs Hcond.
  assert (Hw : call_tool_window content start_index max_length = NO_MORE_CONTENT).
  { destruct (call_tool_window_cases content start_index max_length Hm Hs)
      as [(_ & _ & Hw) | [(Hmore & Hlen & _) | (Hend & Hlen & _)]].
    - exact Hw.
    - exfalso. destruct Hcond as [Hge | Hnil]; [lia|].
      rewrite Hnil in Hlen. change (len (@nil char)) with 0 in Hlen. lia.
    - exfalso. destruct Hcond as [Hge | Hnil]; [lia|].
      rewrite Hnil in Hlen. change (len (@nil char)) with 0 in Hlen. lia. }
  split; [exact Hw|].
  intros pre n. rewrite Hw. apply NO_MORE_CONTENT_no_hint.
Qed.

Lemma call_tool_window_no_more_content_witness :
  0 < 5000 /\ 0 <= 5
  /\ (len (lit "Hello") <= 5 \/ py_slice (lit "Hello") 5 (5 + 5000) = [])
  /\ call_tool_window (lit "Hello") 5 5000 = NO_MORE_CONTENT.
Proof.
  split; [reflexivity|]. split; [discriminate|].
  split; [left; discriminate|].
  apply (call_tool_window_no_more_content (lit "Hello") 5 5000);
    [reflexivity | discriminate | left; discriminate].
Defined.

Lemma len_call_tool_text (prefix url content : str) :
  len (call_tool_text prefix url content) = len prefix + 12 + len url + 2 + len content.
Proof.
  unfold call_tool_text. rewrite !len_app.
  match goal with |- _ + (len ?a + (_ + (len ?b + _))) = _ =>
    change (len a) with 12; change (len b) with 2 end.
  lia.
Qed.

(** C9: whenever the handler appends the truncation hint, its content is the
    slice of exactly [max_length] characters followed by the hint for
    [start_index + max_length]; that content, and the payload built from it,
    are strictly longer than [max_length]. *)
Theorem call_tool_hint_exceeds_max_length
  (prefix url content : str) (start_index max_length next_start : Z) :
  0 < max_length -> 0 <= start_index ->
  let slice := py_slice content start_index (start_index + max_length) in
  let out := call_tool_window content start_index max_length in
  out = slice ++ truncation_hint next_start ->
  len slice = max_length
  /\ next_start = start_index + max_length
  /\ len out = max_length + len (truncation_hint next_start)
  /\ max_length < len out
  /\ max_length < len (call_tool_text prefix url out).
Proof.
  intros Hm Hs slice out Hout.
  assert (Hlen : len slice = max_length /\ next_start = start_index + max_length).
  { destruct (call_tool_window_cases content start_index max_length Hm Hs)
      as [(_ & Hnil & Hw) | [(Hmore & Hlen & Hw) | (Hend & Hlen & Hw)]];
      fold slice in Hnil || fold slice in Hlen; fold slice out in Hw.
    - exfalso. rewrite Hw, Hnil in Hout. simpl in Hout.
      exact (NO_MORE_CONTENT_not_hint _ Hout).
    - split; [exact Hlen|]. rewrite Hw in Hout.
      apply app_inv_head in Hout. symmetry. apply truncation_hint_inj, Hout.
    - exfalso. rewrite Hw in Hout. symmetry in Hout.
      exact (app_hint_neq _ _ Hout). }
  destruct Hlen as [Hlen Hnext].
  pose proof (truncation_hint_nonempty next_start) as Hpos.
  assert (Hlo : len out = max_length + len (truncation_hint next_start))
    by (rewrite Hout, len_app; lia).
  repeat (split; [assumption || lia|]).
  rewrite len_call_tool_text.
  pose proof (len_nonneg prefix). pose proof (len_nonneg url). lia.
Qed.

Lemma call_tool_hint_exceeds_max_length_witness :
  0 < 10 /\ 0 <= 0
  /\ call_tool_window (lit "Hello world string of length 50") 0 10
     = py_slice (lit "Hello world string of length 50") 0 (0 + 10)
       ++ truncation_hint 10
  /\ 10 < len (call_tool_window (lit "Hello world string of length 50") 0 10).
Proof.
  split; [reflexivity|]. split; [discriminate|]. split; [reflexivity|].
  apply (call_tool_hint_exceeds_max_length
           [] (lit "http://example.com/page")
           (lit "Hello world string of length 50") 0 10 10);
    [reflexivity | discriminate | reflexivity].
Defined.

(** ** Substrings *)

Lemma startswith_spec (s p : str) :
  startswith s p = true <-> exists post, s = p ++ post.
Proof.
  revert s. induction p as [|a p IH]; intros s; simpl.
  - split; [intros _; exists s; reflexivity | reflexivity].
  - destruct s as [|b s].
    + split; [discriminate | intros [post H]; discriminate].
    + rewrite andb_true_iff, N.eqb_eq, IH. split.
      * intros [-> [post ->]]. exists post. reflexivity.
      * intros [post H]. injection H as -> ->. split; [reflexivity | eauto].
Qed.

Lemma str_in_spec (p s : str) : str_in p s = true <-> Contains p s.
Proof.
  unfold Contains. induction s as [|c s IH].
  - simpl. rewrite orb_false_r, startswith_spec. split.
    + intros [post H]. exists [], post. exact H.
    + intros [pre [post H]]. destruct pre as [|x pre]; [|discriminate].
      exists post. exact H.
  - simpl. rewrite orb_true_iff, startswith_spec, IH. split.
    + intros [[post H] | [pre [post H]]].
      * exists [], post. exact H.
      * exists (c :: pre), post. rewrite H. reflexivity.
    + intros [pre [post H]]. destruct pre as [|x pre].
      * left. exists post. exact H.
      * right. injection H as _ H. exists pre, post. exact H.
Qed.

Lemma py_prefix_firstn {A} (s : list A) (n : nat) :
  py_prefix s (Z.of_nat n) = firstn n s.
Proof.
  unfold py_prefix. rewrite py_slice_nonneg by lia.
  pose proof (len_nonneg s) as Hs. unfold len in *.
  rewrite (Z.min_l 0) by lia. simpl skipn. rewrite Z.sub_0_r.
  destruct (Z.min_spec (Z.of_nat n) (Z.of_nat (List.length s))) as [[Hlt ->] | [Hge ->]].
  - rewrite Nat2Z.id. reflexivity.
  - rewrite Nat2Z.id, firstn_all. symmetry. apply firstn_all2. lia.
Qed.

Lemma truthy_false_iff (s : str) : truthy s = false <-> s = [].
Proof. destruct s; simpl; split; intros; congruence. Qed.

(** ** The HTML classification of [fetch_url] *)

(** C3: the classification computed by [fetch_url] holds exactly when
    [<html] occurs in the first 100 characters of the body, or the
    content-type header contains [text/html], or that header is absent or
    empty. *)
Theorem is_page_html_iff (response : Response) :
  is_page_html (text response) (headers_get_content_type response) = true
  <-> Contains (lit "<html") (firstn 100 (text response))
      \/ (exists v, content_type response = Some v /\ Contains (lit "text/html") v)
      \/ content_type response = None
      \/ content_type response = Some [].
Proof.
  unfold is_page_html.
  rewrite !orb_true_iff, negb_true_iff, !str_in_spec, truthy_false_iff.
  change 100 with (Z.of_nat 100). rewrite py_prefix_firstn.
  unfold headers_get_content_type.
  destruct (content_type response) as [v|].
  - split.
    + intros [[H | H] | H]; [left; exact H | right; left; eauto |].
      right; right; right. rewrite H. reflexivity.
    + intros [H | [[v' [Hv H]] | [H | H]]].
      * left; left; exact H.
      * injection Hv as ->. left; right; exact H.
      * discriminate.
      * injection H as ->. right. reflexivity.
  - split.
    + intros _. right; right; left. reflexivity.
    + intros _. right. reflexivity.
Qed.

(** ** Lines *)

Lemma splitlines_cons_plain (c : char) (s : str) :
  is_linebreak c = false ->
  splitlines (c :: s)
  = match splitlines s with [] => [[c]] | l :: ls => (c :: l) :: ls end.
Proof. intros Hc. simpl. rewrite Hc. reflexivity. Qed.

(** The lines that [splitlines] returns hold no line break. *)
Lemma splitlines_no_break (s : str) : Forall no_break (splitlines s).
Proof.
  assert (G : forall n s, (List.length s <= n)%nat -> Forall no_break (splitlines s)).
  { clear s. induction n as [|n IH]; intros s Hn.
    - destruct s; [constructor | simpl in Hn; lia].
    - destruct s as [|c s]; [constructor|].
      simpl in Hn. assert (Hs : (List.length s <= n)%nat) by lia.
      destruct (is_linebreak c) eqn:Hc.
      + simpl. rewrite Hc. constructor; [constructor|].
        destruct (c =? 13)%N; [|apply IH, Hs].
        destruct s as [|d s']; [constructor|].
        destruct (d =? 10)%N; [|apply IH, Hs].
        apply IH. simpl in Hs. lia.
      + rewrite splitlines_cons_plain by assumption.
        specialize (IH s Hs). destruct (splitlines s) as [|l ls].
        * repeat constructor. assumption.
        * inversion IH; subst. constructor; [constructor|]; assumption. }
  exact (G (List.length s) s (le_n _)).
Qed.

(** A text without line breaks is one line, or none when it is empty. *)
Lemma splitlines_one (l : str) :
  no_break l -> splitlines l = match l with [] => [] | _ => [l] end.
Proof.
  induction 1 as [|c l Hc Hl IH]; [reflexivity|].
  rewrite splitlines_cons_plain by assumption. rewrite IH.
  destruct l; reflexivity.
Qed.

(** A line followed by a line feed is split off whole. *)
Lemma splitlines_line_feed (l rest : str) :
  no_break l -> splitlines (l ++ lit "
" ++ rest) = l :: splitlines rest.
Proof.
  induction 1 as [|c l Hc Hl IH]; [reflexivity|].
  change ((c :: l) ++ lit "
" ++ rest) with (c :: (l ++ lit "
" ++ rest)).
  rewrite splitlines_cons_plain by assumption. rewrite IH. reflexivity.
Qed.

(** Joining lines with line feeds and splitting again invents no line. *)
Lemma splitlines_join_incl (ls : list str) (l : str) :
  Forall no_break ls ->
  In l (splitlines (join (lit "
") ls)) -> In l ls.
Proof.
  induction 1 as [|x ls Hx Hls IH]; [intros []|].
  destruct ls as [|y ls'].
  - simpl join. rewrite splitlines_one by assumption.
    destruct x; [intros [] | intros Hin; exact Hin].
  - change (join (lit "
") (x :: y :: ls')) with (x ++ lit "
" ++ join (lit "
") (y :: ls')).
    rewrite splitlines_line_feed by assumption.
    intros [<- | Hin]; [left; reflexivity | right; apply IH, Hin].
Qed.

Lemma Forall_filter {A} (P : A -> Prop) (f : A -> bool) (l : list A) :
  Forall P l -> Forall P (filter f l).
Proof.
  induction 1 as [|x l Hx Hl IH]; simpl; [constructor|].
  destruct (f x); [constructor|]; assumption.
Qed.

(** No comment line reaches the text handed to the parser. *)
Lemma processed_robot_txt_no_comment (robot_txt : str) :
  Forall (fun line => is_comment_line line = false)
         (splitlines (processed_robot_txt robot_txt)).
Proof.
  apply Forall_forall. intros l Hin.
  unfold processed_robot_txt in Hin.
  apply splitlines_join_incl in Hin.
  - apply filter_In in Hin. destruct Hin as [_ Hl].
    apply negb_true_iff, Hl.
  - apply Forall_filter, splitlines_no_break.
Qed.

(** A line that is kept and is not empty does reach the parser. *)
Lemma splitlines_join_In (ls : list str) (l : str) :
  Forall no_break ls -> In l ls -> l <> [] ->
  In l (splitlines (join (lit "
") ls)).
Proof.
  induction 1 as [|x ls Hx Hls IH]; [intros []|].
  intros Hin Hne. destruct ls as [|y ls'].
  - destruct Hin as [-> | []]. simpl join.
    rewrite splitlines_one by assumption.
    destruct l; [congruence | left; reflexivity].
  - change (join (lit "
") (x :: y :: ls')) with (x ++ lit "
" ++ join (lit "
") (y :: ls')).
    rewrite splitlines_line_feed by assumption.
    destruct Hin as [-> | Hin]; [left; reflexivity | right; apply IH; assumption].
Qed.

Lemma processed_robot_txt_keeps (robot_txt line : str) :
  In line (splitlines robot_txt) -> is_comment_line line = false -> line <> [] ->
  In line (splitlines (processed_robot_txt robot_txt)).
Proof.
  intros Hin Hc Hne. unfold processed_robot_txt.
  apply splitlines_join_In; [apply Forall_filter, splitlines_no_break | | exact Hne].
  apply filter_In. split; [exact Hin | rewrite Hc; reflexivity].
Qed.

(** ** Occurrences inside a message *)

Lemma Contains_skip (p a s : str) : Contains p s -> Contains p (a ++ s).
Proof.
  intros [pre [post ->]]. exists (a ++ pre), post.
  rewrite <- app_assoc. reflexivity.
Qed.

Lemma Contains_head (p post : str) : Contains p (p ++ post).
Proof. exists [], post. reflexivity. Qed.

Lemma Contains_head3 (a b c post : str) :
  Contains (a ++ b ++ c) (a ++ b ++ c ++ post).
Proof. exists [], post. simpl. rewrite <- !app_assoc. reflexivity. Qed.

Ltac find_occurrence :=
  first [ apply Contains_head3 | apply Contains_head
        | apply Contains_skip; find_occurrence ].

(** ** Comment lines of a robots text *)

Lemma lstrip_spaces (ws s : str) :
  Forall (fun c => is_space c = true) ws -> lstrip (ws ++ s) = lstrip s.
Proof.
  induction 1 as [|c ws Hc Hws IH]; [reflexivity|].
  simpl. rewrite Hc. exact IH.
Qed.

Lemma lstrip_split (s : str) :
  exists ws, s = ws ++ lstrip s /\ Forall (fun c => is_space c = true) ws.
Proof.
  induction s as [|c s (ws & Hs & Hws)].
  - exists []. split; [reflexivity | constructor].
  - simpl. destruct (is_space c) eqn:Hc.
    + exists (c :: ws). split; [simpl; rewrite <- Hs; reflexivity|].
      constructor; assumption.
    + exists []. split; [reflexivity | constructor].
Qed.

Lemma lstrip_head (s : str) (c : char) (t : str) :
  lstrip s = c :: t -> is_space c = false.
Proof.
  induction s as [|x s IH]; [discriminate|].
  simpl. destruct (is_space x) eqn:Hx; [exact IH|].
  intros H. injection H as <- _. exact Hx.
Qed.

Lemma lstrip_keeps_last (xs : str) (c : char) :
  is_space c = false -> exists ys, lstrip (xs ++ [c]) = ys ++ [c].
Proof.
  intros Hc. induction xs as [|x xs (ys & IH)].
  - exists []. simpl. rewrite Hc. reflexivity.
  - simpl. destruct (is_space x).
    + exists ys. exact IH.
    + exists (x :: xs). reflexivity.
Qed.

Lemma rstrip_keeps_head (c : char) (t : str) :
  is_space c = false -> exists t', rstrip (c :: t) = c :: t'.
Proof.
  intros Hc. unfold rstrip. simpl rev.
  destruct (lstrip_keeps_last (rev t) c Hc) as (ys & ->).
  exists (rev ys). rewrite rev_app_distr. reflexivity.
Qed.

Lemma is_comment_line_spec (line : str) :
  is_comment_line line = true <-> comment_line line.
Proof.
  unfold comment_line, is_comment_line, strip. split.
  - intros Hstart. apply startswith_spec in Hstart. destruct Hstart as [post Hpost].
    destruct (lstrip_split line) as (ws & Hline & Hws).
    destruct (lstrip line) as [|c t] eqn:Hl; [discriminate|].
    pose proof (lstrip_head _ _ _ Hl) as Hc.
    destruct (rstrip_keeps_head c t Hc) as (t' & Ht'). rewrite Ht' in Hpost.
    injection Hpost as -> _.
    exists ws, t. split; assumption.
  - intros (ws & rest & -> & Hws).
    rewrite lstrip_spaces by assumption.
    change (lstrip (35%N :: rest)) with (35%N :: rest).
    destruct (rstrip_keeps_head 35%N rest eq_refl) as (t' & Ht').
    unfold str, char in *. rewrite Ht'. reflexivity.
Qed.

Lemma is_comment_line_false (line : str) :
  is_comment_line line = false <-> ~ comment_line line.
Proof.
  rewrite <- is_comment_line_spec. destruct (is_comment_line line); split;
    intros; congruence.
Qed.

(** ** The robots.txt check *)

Section Robots.
Context {L : Libraries}.



Lemma check_rules (url user_agent : str) (response : Response) :
  ~ 400 <= status_code response < 500 ->
  exec (check_may_autonomously_fetch_url url user_agent) [Responded response]
  = Some (if can_fetch (Protego_parse (processed_robot_txt (text response)))
                       url user_agent
          then Ok tt
          else McpError {| code := INTERNAL_ERROR;
                           message := robots_disallow_message
                                        (get_robots_txt_url url) user_agent url
                                        (text response) |},
          [robots_request (get_robots_txt_url url) user_agent]).
Proof.
  intros Hst. unfold check_may_autonomously_fetch_url. simpl.
  destruct (Z.eqb_spec (status_code response) 401); [lia|].
  destruct (Z.eqb_spec (status_code response) 403); [lia|].
  simpl.
  destruct (Z.leb_spec 400 (status_code response)),
           (Z.ltb_spec (status_code response) 500); try lia; simpl;
    destruct (can_fetch _ _ _); reflexivity.
Qed.


(** C5: when the rules disallow the URL, the text handed to the parser is the
    robots text without the lines whose trimmed content starts with [#]: no
    line of it has a [#] as its first character after leading white space,
    every line of it is a line of the robots text, and every other non-empty
    line of the robots text is still there; while the message of the error
    raised carries the robots text as received, comment lines included,
    together with the robots URL, the user agent and the target URL. *)
Theorem robots_comments_stripped_raw_embedded
  (url user_agent : str) (response : Response) :
  let robot_txt := text response in
  let robot_txt_url := get_robots_txt_url url in
  let parsed_text := processed_robot_txt robot_txt in
  ~ 400 <= status_code response < 500 ->
  can_fetch (Protego_parse parsed_text) url user_agent = false ->
  Forall (fun line =>
            ~ exists ws rest,
                line = ws ++ 35%N :: rest
                /\ Forall (fun c => is_space c = true) ws)
         (splitlines parsed_text)
  /\ (forall line, In line (splitlines parsed_text) -> In line (splitlines robot_txt))
  /\ (forall line, In line (splitlines robot_txt) ->
        (~ exists ws rest,
             line = ws ++ 35%N :: rest
             /\ Forall (fun c => is_space c = true) ws) ->
        line <> [] ->
        In line (splitlines parsed_text))
  /\ exists msg,
       exec (check_may_autonomously_fetch_url url user_agent) [Responded response]
       = Some (McpError {| code := INTERNAL_ERROR; message := msg |},
               [robots_request robot_txt_url user_agent])
       /\ Contains (lit "<robots>
" ++ robot_txt ++ lit "
</robots>
") msg
       /\ Contains robot_txt_url msg
       /\ Contains (lit "<useragent>" ++ user_agent ++ lit "</useragent>
") msg
       /\ Contains (lit "<url>" ++ url ++ lit "</url>") msg.
Proof.
  intros robot_txt robot_txt_url parsed_text Hst Hdeny.
  split.
  { pose proof (processed_robot_txt_no_comment robot_txt) as Hnc.
    fold parsed_text in Hnc.
    eapply Forall_impl; [|exact Hnc].
    intros line Hline. apply is_comment_line_false, Hline. }
  split.
  { intros line Hin. unfold parsed_text, processed_robot_txt in Hin.
    apply splitlines_join_incl in Hin;
      [|apply Forall_filter, splitlines_no_break].
    apply filter_In in Hin. exact (proj1 Hin). }
  split.
  { intros line Hin Hnot Hne. apply processed_robot_txt_keeps; [exact Hin | | exact Hne].
    apply is_comment_line_false, Hnot. }
  exists (robots_disallow_message robot_txt_url user_agent url robot_txt).
  split.
  - rewrite check_rules by assumption.
    unfold parsed_text, robot_txt in Hdeny. rewrite Hdeny. reflexivity.
  - unfold robots_disallow_message.
    generalize robot_txt_url robot_txt. intros u t.
    repeat split; find_occurrence.
Qed.

(** The rebuilt URL of line 75, case by case. *)
Lemma urlunparse_robots (sch loc : str) :
  urlunparse sch loc (lit "/robots.txt") [] [] []
  = (if truthy sch then sch ++ lit ":" else [])
    ++ (if truthy loc || truthy sch && mem_str sch uses_netloc
        then lit "//" ++ loc else [])
    ++ lit "/robots.txt".
Proof.
  unfold urlunparse, urlunsplit.
  change (truthy []) with false. cbv iota.
  change (str_eqb (py_prefix (lit "/robots.txt") 2) (lit "//")) with false.
  change (truthy (lit "/robots.txt")
          && negb (str_eqb (py_prefix (lit "/robots.txt") 1) (lit "/")))
    with false.
  cbv iota. rewrite andb_true_r.
  destruct (truthy loc || truthy sch && mem_str sch uses_netloc), (truthy sch);
    rewrite <- ?app_assoc; reflexivity.
Qed.

(** C7: the robots URL is rebuilt from the scheme and the network location
    ([netloc], the host part of the URL as [urlparse] returns it) of the
    target URL, followed by [/robots.txt]; the path, parameters, query and
    fragment of the target URL play no part in it. *)
Theorem get_robots_txt_url_spec (url : str) :
  let parsed := urlparse url in
  get_robots_txt_url url
  = (if truthy (scheme parsed) then scheme parsed ++ lit ":" else [])
    ++ (if truthy (netloc parsed)
           || truthy (scheme parsed) && mem_str (scheme parsed) uses_netloc
        then lit "//" ++ netloc parsed else [])
    ++ lit "/robots.txt"
  /\ (scheme parsed <> [] -> netloc parsed <> [] ->
      get_robots_txt_url url
      = scheme parsed ++ lit "://" ++ netloc parsed ++ lit "/robots.txt")
  /\ (forall url',
        scheme (urlparse url') = scheme parsed ->
        netloc (urlparse url') = netloc parsed ->
        get_robots_txt_url url' = get_robots_txt_url url).
Proof.
  intros parsed. unfold get_robots_txt_url. fold parsed.
  split; [apply urlunparse_robots|].
  split.
  - intros Hs Hn. rewrite urlunparse_robots.
    destruct (scheme parsed) as [|c sch]; [congruence|].
    destruct (netloc parsed) as [|d loc]; [congruence|].
    simpl truthy. cbv iota. simpl orb. cbv iota.
    rewrite <- !app_assoc. reflexivity.
  - intros url' Hs Hn. rewrite Hs, Hn. reflexivity.
Qed.

End Robots.

(** ** Running a sequence of calls *)

Lemma exec_prog_bind {A B} (p : Prog A) (f : A -> Prog B)
  (outs1 outs2 : list Outcome) (a : A) (reqs1 : list Request) :
  exec p outs1 = Some (a, reqs1) ->
  exec (prog_bind p f) (outs1 ++ outs2)
  = match exec (f a) outs2 with
    | Some (b, reqs2) => Some (b, reqs1 ++ reqs2)
    | None => None
    end.
Proof.
  revert outs1 reqs1. induction p as [a'|req k IH]; intros outs1 reqs1 Hp.
  - destruct outs1; [|discriminate]. injection Hp as -> <-. simpl.
    destruct (exec (f a) outs2) as [[b reqs2]|]; reflexivity.
  - destruct outs1 as [|o rest]; [discriminate|]. simpl in Hp |- *.
    destruct (exec (k o) rest) as [[a' reqs']|] eqn:Hk; [|discriminate].
    injection Hp as -> <-.
    rewrite (IH o rest reqs' Hk).
    destruct (exec (f a) outs2) as [[b reqs2]|]; reflexivity.
Qed.

Lemma exec_bind_ok {A B} (m : M A) (f : A -> M B)
  (outs1 outs2 : list Outcome) (a : A) (reqs1 : list Request) :
  exec m outs1 = Some (Ok a, reqs1) ->
  exec (bind m f) (outs1 ++ outs2)
  = match exec (f a) outs2 with
    | Some (b, reqs2) => Some (b, reqs1 ++ reqs2)
    | None => None
    end.
Proof. intros Hm. unfold bind. rewrite (exec_prog_bind _ _ _ _ _ _ Hm). reflexivity. Qed.

Lemma all_requests_prog_bind {A B} (P : Request -> Prop) (p : Prog A) (f : A -> Prog B) :
  all_requests P p -> (forall a, all_requests P (f a)) ->
  all_requests P (prog_bind p f).
Proof.
  intros Hp Hf. induction p as [a|req k IH]; simpl in *.
  - apply Hf.
  - destruct Hp as [Hreq Hk]. split; [exact Hreq|].
    intros o. apply IH, Hk.
Qed.

Lemma all_requests_bind {A B} (P : Request -> Prop) (m : M A) (f : A -> M B) :
  all_requests P m -> (forall a, all_requests P (f a)) ->
  all_requests P (bind m f).
Proof.
  intros Hm Hf. unfold bind. apply all_requests_prog_bind; [exact Hm|].
  intros [a|e|x]; [apply Hf | exact I | exact I].
Qed.

(** ** The tool and prompt handlers *)

Section Handlers.
Context {L : Libraries}.

Lemma all_requests_check (url user_agent : str) :
  all_requests (fun r => req_user_agent r = user_agent)
               (check_may_autonomously_fetch_url url user_agent).
Proof.
  unfold check_may_autonomously_fetch_url. simpl. split; [reflexivity|].
  intros [response|e1 e2|x]; [|exact I|exact I].
  repeat match goal with |- context [if ?b then _ else _] => destruct b end;
    exact I.
Qed.

Lemma all_requests_fetch_url (url user_agent : str) (force_raw : bool) :
  all_requests (fun r => req_user_agent r = user_agent)
               (fetch_url url user_agent force_raw).
Proof.
  unfold fetch_url. simpl. split; [reflexivity|].
  intros [response|e1 e2|x]; [|exact I|exact I].
  repeat match goal with |- context [if ?b then _ else _] => destruct b end;
    exact I.
Qed.

Lemma all_requests_call_tool (cfg : Config) (name : str) (arguments : FetchArguments) :
  all_requests (fun r => req_user_agent r = user_agent_autonomous cfg)
               (call_tool cfg name arguments).
Proof.
  unfold call_tool.
  destruct (Fetch_validate arguments) as [args|]; [|exact I].
  destruct (negb (truthy (url args))); [exact I|].
  apply all_requests_bind.
  - destruct (negb (ignore_robots_txt cfg)); [apply all_requests_check | exact I].
  - intros _. apply all_requests_bind; [apply all_requests_fetch_url|].
    intros [content prefix]. exact I.
Qed.

Lemma all_requests_get_prompt (cfg : Config) (name : str)
  (arguments : option (list (str * str))) :
  all_requests (fun r => req_user_agent r = user_agent_manual cfg)
               (get_prompt cfg name arguments).
Proof.
  unfold get_prompt.
  destruct arguments as [d|]; [|exact I].
  destruct (dict_get d (lit "url")) as [url|]; [|exact I].
  apply all_requests_prog_bind; [apply all_requests_fetch_url|].
  intros [[content prefix]|e|x]; exact I.
Qed.

(** C10: with a custom user agent configured (a non-empty string), the tool
    handler and the prompt handler send that one string in every request they
    make; the autonomous and the manual user agent differ only when no such
    override is in force, and then they are the two built-in strings. *)
Theorem custom_user_agent_shared (cfg : Config) (name : str)
  (arguments : FetchArguments) (prompt_arguments : option (list (str * str))) :
  (forall ua, custom_user_agent cfg = Some ua -> ua <> [] ->
     user_agent_autonomous cfg = ua /\ user_agent_manual cfg = ua
     /\ all_requests (fun r => req_user_agent r = ua) (call_tool cfg name arguments)
     /\ all_requests (fun r => req_user_agent r = ua)
                     (get_prompt cfg name prompt_arguments))
  /\ (user_agent_autonomous cfg <> user_agent_manual cfg ->
        custom_user_agent cfg = None \/ custom_user_agent cfg = Some [])
  /\ (custom_user_agent cfg = None \/ custom_user_agent cfg = Some [] ->
        user_agent_autonomous cfg = DEFAULT_USER_AGENT_AUTONOMOUS
        /\ user_agent_manual cfg = DEFAULT_USER_AGENT_MANUAL
        /\ DEFAULT_USER_AGENT_AUTONOMOUS <> DEFAULT_USER_AGENT_MANUAL).
Proof.
  pose proof (all_requests_call_tool cfg name arguments) as Htool.
  pose proof (all_requests_get_prompt cfg name prompt_arguments) as Hprompt.
  unfold user_agent_autonomous, user_agent_manual in *.
  destruct (custom_user_agent cfg) as [[|c s]|]; simpl in *.
  - split; [intros ua Hua Hne; injection Hua as <-; congruence|].
    split; [intros _; right; reflexivity|].
    intros _. repeat split. discriminate.
  - split.
    + intros ua Hua _. injection Hua as <-. repeat split; assumption.
    + split; [intros Hne; congruence|].
      intros [Hc | Hc]; discriminate.
  - split; [intros ua Hua; discriminate|].
    split; [intros _; left; reflexivity|].
    intros _. repeat split. discriminate.
Qed.

(** The successful run of the tool handler: the robots check, when enforced,
    passes on [policy_outcomes], and the fetch returns [(content, prefix)]. *)
Lemma call_tool_returns (cfg : Config) (name : str) (arguments : FetchArguments)
  (args : Fetch) (policy_outcomes : list Outcome) (policy_requests : list Request)
  (outcome : Outcome) (content prefix : str) :
  Fetch_validate arguments = Some args ->
  url args <> [] ->
  exec (if negb (ignore_robots_txt cfg)
        then check_may_autonomously_fetch_url (url args) (user_agent_autonomous cfg)
        else ret tt) policy_outcomes
  = Some (Ok tt, policy_requests) ->
  exec (fetch_url (url args) (user_agent_autonomous cfg) (raw args)) [outcome]
  = Some (Ok (content, prefix),
          [fetch_request (url args) (user_agent_autonomous cfg)]) ->
  exec (call_tool cfg name arguments) (policy_outcomes ++ [outcome])
  = Some (Ok [ {| type := lit "text";
                  text_of := call_tool_text prefix (url args)
                               (call_tool_window content (start_index args)
                                                 (max_length args)) |} ],
          policy_requests ++ [fetch_request (url args) (user_agent_autonomous cfg)]).
Proof.
  intros Hval Hurl Hpolicy Hfetch. unfold call_tool. rewrite Hval.
  destruct (url args) as [|c u] eqn:Eu; [congruence|]. simpl truthy. cbv iota.
  simpl negb. cbv iota.
  rewrite (exec_bind_ok _ _ _ _ _ _ Hpolicy).
  change [outcome] with ([outcome] ++ []).
  rewrite (exec_bind_ok _ _ _ _ _ _ Hfetch).
  reflexivity.
Qed.

(** C6, as the code has it: when [start_index] equals the length of the
    fetched content, the content part of the payload is exactly the sentinel
    [<error>No more content available.</error>], and the text returned is the
    prefix, then [Contents of], the URL, a colon and a line feed, then that
    sentinel; so the text returned is never the bare sentinel. *)
Theorem call_tool_start_at_end (cfg : Config) (name : str)
  (arguments : FetchArguments) (args : Fetch)
  (policy_outcomes : list Outcome) (policy_requests : list Request)
  (outcome : Outcome) (content prefix : str) :
  Fetch_validate arguments = Some args ->
  url args <> [] ->
  exec (if negb (ignore_robots_txt cfg)
        then check_may_autonomously_fetch_url (url args) (user_agent_autonomous cfg)
        else ret tt) policy_outcomes
  = Some (Ok tt, policy_requests) ->
  exec (fetch_url (url args) (user_agent_autonomous cfg) (raw args)) [outcome]
  = Some (Ok (content, prefix),
          [fetch_request (url args) (user_agent_autonomous cfg)]) ->
  start_index args = len content ->
  let payload := prefix ++ lit "Contents of " ++ url args ++ lit ":
" ++ NO_MORE_CONTENT in
  call_tool_window content (start_index args) (max_length args) = NO_MORE_CONTENT
  /\ exec (call_tool cfg name arguments) (policy_outcomes ++ [outcome])
     = Some (Ok [ {| type := lit "text"; text_of := payload |} ],
             policy_requests ++ [fetch_request (url args) (user_agent_autonomous cfg)])
  /\ payload <> NO_MORE_CONTENT.
Proof.
  intros Hval Hurl Hpolicy Hfetch Hstart payload.
  assert (Hw : call_tool_window content (start_index args) (max_length args)
               = NO_MORE_CONTENT).
  { unfold call_tool_window. rewrite Hstart.
    destruct (Z.geb_spec (len content) (len content)); [reflexivity | lia]. }
  split; [exact Hw|]. split.
  - rewrite (call_tool_returns cfg name arguments args policy_outcomes
               policy_requests outcome content prefix Hval Hurl Hpolicy Hfetch).
    rewrite Hw. reflexivity.
  - intros Heq. apply (f_equal len) in Heq.
    change payload with (call_tool_text prefix (url args) NO_MORE_CONTENT) in Heq.
    rewrite len_call_tool_text in Heq.
    pose proof (len_nonneg prefix). pose proof (len_nonneg (url args)). lia.
Qed.

End Handlers.

(** ** The handlers on the reference instance *)


Lemma robots_comments_stripped_raw_embedded_witness :
  ~ 400 <= 200 < 500
  /\ example_can_fetch (splitlines (processed_robot_txt example_robots_indented))
                       example_url DEFAULT_USER_AGENT_AUTONOMOUS = false
  /\ In (lit "  # the rules") (splitlines example_robots_indented)
  /\ processed_robot_txt example_robots_indented
     = lit "User-agent: *   # all agents
Disallow: /"
  /\ Forall (fun line =>
               ~ exists ws rest,
                   line = ws ++ 35%N :: rest
                   /\ Forall (fun c => is_space c = true) ws)
            (splitlines (processed_robot_txt example_robots_indented)).
Proof.
  split; [lia|]. split; [vm_compute; reflexivity|].
  split; [vm_compute; tauto|]. split; [vm_compute; reflexivity|].
  refine (proj1 (@robots_comments_stripped_raw_embedded example_libraries
                   example_url DEFAULT_USER_AGENT_AUTONOMOUS
                   (robots_response 200 example_robots_indented) _ _)).
  - change (~ 400 <= 200 < 500). lia.
  - vm_compute. reflexivity.
Defined.

(** The comment line of the example leaves the parsed text and stays in the
    message. *)
Example comment_line_stripped_and_embedded :
  processed_robot_txt example_robots_deny = lit "User-agent: *
Disallow: /"
  /\ exec (@check_may_autonomously_fetch_url example_libraries example_url
             DEFAULT_USER_AGENT_AUTONOMOUS)
          [Responded (robots_response 200 example_robots_deny)]
     = Some (McpError
               {| code := INTERNAL_ERROR;
                  message := lit "The sites robots.txt (http://example.com/robots.txt), specifies that autonomous fetching of this page is not allowed, <useragent>ModelContextProtocol/1.0 (Autonomous; +https://github.com/modelcontextprotocol/servers)</useragent>
<url>http://example.com/page</url><robots>
# comment
User-agent: *
Disallow: /

</robots>
The assistant must let the user know that it failed to view the page. The assistant may provide further guidance based on the above information.
The assistant can tell the user that they can try manually fetching the page by using the fetch prompt within their UI." |},
             [robots_request (lit "http://example.com/robots.txt")
                             DEFAULT_USER_AGENT_AUTONOMOUS]).
Proof. split; vm_compute; reflexivity. Qed.

Lemma get_robots_txt_url_spec_witness :
  scheme (urlparse_model (lit "http://example.com:8080/docs/a?x=1#top")) <> []
  /\ netloc (urlparse_model (lit "http://example.com:8080/docs/a?x=1#top")) <> []
  /\ @get_robots_txt_url example_libraries (lit "http://example.com:8080/docs/a?x=1#top")
     = lit "http://example.com:8080/robots.txt"
  /\ @get_robots_txt_url example_libraries (lit "http://example.com:8080/other;p?y=2")
     = @get_robots_txt_url example_libraries (lit "http://example.com:8080/docs/a?x=1#top").
Proof.
  split; [discriminate|]. split; [discriminate|]. split.
  - apply (proj1 (proj2 (@get_robots_txt_url_spec example_libraries
                           (lit "http://example.com:8080/docs/a?x=1#top"))));
      discriminate.
  - apply (proj2 (proj2 (@get_robots_txt_url_spec example_libraries
                           (lit "http://example.com:8080/docs/a?x=1#top"))));
      reflexivity.
Defined.

Lemma custom_user_agent_shared_witness :
  custom_user_agent custom_config = Some (lit "ExampleBot/2.0")
  /\ lit "ExampleBot/2.0" <> []
  /\ user_agent_autonomous custom_config = lit "ExampleBot/2.0"
  /\ user_agent_manual custom_config = lit "ExampleBot/2.0".
Proof.
  split; [reflexivity|]. split; [discriminate|].
  destruct (proj1 (@custom_user_agent_shared example_libraries custom_config
                     (lit "fetch") example_arguments_at_end None)
                  (lit "ExampleBot/2.0") eq_refl)
    as (Ha & Hm & _); [discriminate|].
  split; assumption.
Defined.

Lemma call_tool_start_at_end_witness :
  @Fetch_validate example_libraries example_arguments_at_end = Some example_args_at_end
  /\ url example_args_at_end <> []
  /\ start_index example_args_at_end = len (text example_page)
  /\ exec (@call_tool example_libraries example_config (lit "fetch")
             example_arguments_at_end)
          ([Responded (robots_response 404 [])] ++ [Responded example_page])
     = Some (Ok [ {| type := lit "text";
                     text_of := [] ++ lit "Contents of " ++ example_url ++ lit ":
" ++ NO_MORE_CONTENT |} ],
             [robots_request (lit "http://example.com/robots.txt")
                             DEFAULT_USER_AGENT_AUTONOMOUS]
             ++ [fetch_request example_url DEFAULT_USER_AGENT_AUTONOMOUS]).
Proof.
  split; [reflexivity|]. split; [discriminate|]. split; [reflexivity|].
  apply (@call_tool_start_at_end example_libraries example_config (lit "fetch")
           example_arguments_at_end example_args_at_end
           [Responded (robots_response 404 [])]
           [robots_request (lit "http://example.com/robots.txt")
                           DEFAULT_USER_AGENT_AUTONOMOUS]
           (Responded example_page) (text example_page) []);
    [reflexivity | discriminate | reflexivity | reflexivity | reflexivity].
Defined.

(** With [start_index] at the end of the fetched content, the text returned
    is not the bare sentinel: it starts with [Contents of] and the URL. *)
Lemma call_tool_start_at_end_not_bare_sentinel :
  exec (@fetch_url example_libraries example_url DEFAULT_USER_AGENT_AUTONOMOUS false)
       [Responded example_page]
  = Some (Ok (lit "<html>Hello</html>", []),
          [fetch_request example_url DEFAULT_USER_AGENT_AUTONOMOUS])
  /\ start_index example_args_at_end = len (lit "<html>Hello</html>")
  /\ exists payload,
       exec (@call_tool example_libraries example_config (lit "fetch")
               example_arguments_at_end)
            [Responded (robots_response 404 []); Responded example_page]
       = Some (Ok [ {| type := lit "text"; text_of := payload |} ],
               [robots_request (lit "http://example.com/robots.txt")
                               DEFAULT_USER_AGENT_AUTONOMOUS;
                fetch_request example_url DEFAULT_USER_AGENT_AUTONOMOUS])
       /\ payload = lit "Contents of http://example.com/page:
<error>No more content available.</error>"
       /\ payload <> lit "<error>No more content available.</error>".
Proof.
  split; [reflexivity|]. split; [reflexivity|].
  eexists. split; [reflexivity|]. split; [reflexivity | discriminate].
Qed.

(** ** More examples of the classification *)

Example is_page_html_case_sensitive :
  is_page_html (lit "<HTML><body>x</body></HTML>") (lit "application/json") = false.
Proof. reflexivity. Qed.

Example is_page_html_window :
  is_page_html (repeat 32%N 95 ++ lit "<html>") (lit "application/json") = true
  /\ is_page_html (repeat 32%N 96 ++ lit "<html>") (lit "application/json") = false.
Proof. split; reflexivity. Qed.

Example is_page_html_header :
  is_page_html (lit "{}") (lit "text/html; charset=utf-8") = true
  /\ is_page_html (lit "{}") [] = true
  /\ is_page_html (lit "{}") (lit "application/json") = false.
Proof. repeat split. Qed.

(** ** The timeouts the two requests pass *)

Lemma fetch_request_timeout (url user_agent : str) :
  req_timeout (fetch_request url user_agent) = Some 30.
Proof. reflexivity. Qed.

Lemma robots_request_timeout (robot_txt_url user_agent : str) :
  req_timeout (robots_request robot_txt_url user_agent) = None.
Proof. reflexivity. Qed.

(** ** Paging through a content with the window *)

Lemma firstn_app_skipn {A} (k j : nat) (l : list A) :
  firstn k l ++ firstn j (skipn k l) = firstn (k + j) l.
Proof.
  revert l. induction k as [|k IH]; intros l; [reflexivity|].
  destruct l as [|x l]; simpl.
  - rewrite firstn_nil. reflexivity.
  - rewrite IH. reflexivity.
Qed.

(** Two windows that follow each other read as one. *)
Lemma py_slice_adjacent {A} (s : list A) (lo m1 m2 : Z) :
  0 <= lo -> 0 <= m1 -> 0 <= m2 ->
  py_slice s lo (lo + m1) ++ py_slice s (lo + m1) (lo + m1 + m2)
  = py_slice s lo (lo + m1 + m2).
Proof.
  intros Hlo H1 H2. rewrite !py_slice_nonneg by lia.
  set (n := len s).
  set (a := Z.to_nat (Z.min lo n)).
  set (k := Z.to_nat (Z.min (lo + m1) n - Z.min lo n)).
  set (j := Z.to_nat (Z.min (lo + m1 + m2) n - Z.min (lo + m1) n)).
  pose proof (len_nonneg s) as Hn. fold n in Hn.
  replace (Z.to_nat (Z.min (lo + m1) n)) with (k + a)%nat by (subst k a; lia).
  replace (Z.to_nat (Z.min (lo + m1 + m2) n - Z.min lo n)) with (k + j)%nat
    by (subst k j; lia).
  rewrite <- skipn_skipn. apply firstn_app_skipn.
Qed.

Lemma py_slice_all {A} (s : list A) (hi : Z) : len s <= hi -> py_slice s 0 hi = s.
Proof.
  intros Hhi. pose proof (len_nonneg s) as Hn.
  rewrite py_slice_nonneg by lia.
  rewrite Z.min_r, (Z.min_l 0) by lia. simpl skipn.
  rewrite Z.sub_0_r. unfold len. rewrite Nat2Z.id. apply firstn_all.
Qed.

Lemma pages_concat {A} (s : list A) (m : Z) (K : nat) :
  0 < m ->
  List.concat (map (fun k => py_slice s (Z.of_nat k * m) (Z.of_nat k * m + m)) (seq 0 K))
  = py_slice s 0 (Z.of_nat K * m).
Proof.
  intros Hm. induction K as [|K IH].
  - simpl. rewrite py_slice_nonneg by lia. rewrite Z.sub_diag. reflexivity.
  - rewrite seq_S, map_app, concat_app, IH. simpl List.concat. rewrite app_nil_r.
    change (0 + K)%nat with K.
    replace (Z.of_nat (S K) * m) with (0 + Z.of_nat K * m + m) by lia.
    rewrite <- (py_slice_adjacent s 0 (Z.of_nat K * m) m) by lia.
    reflexivity.
Qed.

(** X1: calling the tool with [start_index] 0, then with each [start_index] the
    hint names, pages through the whole content: the pages put end to end are
    the content, every page but the last ends with the hint for the next one,
    and the last page carries no hint. *)
Theorem call_tool_window_pages (content : str) (max_length : Z) (K : nat) :
  0 < max_length ->
  len content <= Z.of_nat K * max_length ->
  List.concat (map (fun k => py_slice content (Z.of_nat k * max_length)
                                 (Z.of_nat k * max_length + max_length))
              (seq 0 K))
  = content
  /\ forall k : nat,
       Z.of_nat k * max_length < len content ->
       call_tool_window content (Z.of_nat k * max_length) max_length
       = py_slice content (Z.of_nat k * max_length)
                  (Z.of_nat k * max_length + max_length)
         ++ (if Z.of_nat (S k) * max_length <? len content
             then truncation_hint (Z.of_nat (S k) * max_length)
             else []).
Proof.
  intros Hm HK. split.
  - rewrite pages_concat by assumption. apply py_slice_all, HK.
  - intros k Hk.
    replace (Z.of_nat (S k) * max_length) with (Z.of_nat k * max_length + max_length)
      by lia.
    destruct (call_tool_window_cases content (Z.of_nat k * max_length) max_length)
      as [(Hout & _) | [(Hmore & _ & Hw) | (Hend & _ & Hw)]]; try lia.
    + rewrite Hw. destruct (Z.ltb_spec (Z.of_nat k * max_length + max_length)
                                       (len content)); [reflexivity | lia].
    + rewrite Hw. destruct (Z.ltb_spec (Z.of_nat k * max_length + max_length)
                                       (len content)); [lia|].
      rewrite app_nil_r. reflexivity.
Qed.

Lemma call_tool_window_pages_witness :
  0 < 4 /\ len (lit "0123456789") <= Z.of_nat 3 * 4
  /\ call_tool_window (lit "0123456789") (Z.of_nat 1 * 4) 4
     = lit "4567" ++ truncation_hint 8.
Proof.
  split; [reflexivity|]. split; [discriminate|].
  apply (proj2 (call_tool_window_pages (lit "0123456789") 4 3
                  eq_refl ltac:(discriminate)) 1%nat).
  reflexivity.
Defined.

(** X2: for a validated request the content the handler returns is never empty:
    it is the sentinel, or it starts with the character at [start_index]. *)
Theorem call_tool_window_nonempty (content : str) (start_index max_length : Z) :
  0 < max_length -> 0 <= start_index ->
  call_tool_window content start_index max_length <> []
  /\ (start_index < len content ->
      exists c rest,
        nth_error content (Z.to_nat start_index) = Some c
        /\ call_tool_window content start_index max_length = c :: rest).
Proof.
  intros Hm Hs.
  assert (Hhead : start_index < len content ->
            exists c rest,
              nth_error content (Z.to_nat start_index) = Some c
              /\ py_slice content start_index (start_index + max_length) = c :: rest).
  { intros Hin. rewrite py_slice_nonneg by lia.
    rewrite (Z.min_l start_index) by lia.
    assert (Hlt : (Z.to_nat start_index < List.length content)%nat)
      by (unfold len in Hin; lia).
    destruct (skipn (Z.to_nat start_index) content) as [|c tl] eqn:Hsk.
    - exfalso. apply (f_equal (@List.length _)) in Hsk.
      rewrite length_skipn in Hsk. simpl in Hsk. lia.
    - exists c.
      assert (Hnth : nth_error content (Z.to_nat start_index) = Some c).
      { rewrite <- (firstn_skipn (Z.to_nat start_index) content) at 1.
        rewrite nth_error_app2 by (rewrite length_firstn; lia).
        rewrite length_firstn, Nat.min_l, Nat.sub_diag, Hsk by lia. reflexivity. }
      destruct (Z.to_nat (Z.min (start_index + max_length) (len content) - start_index))
        as [|j] eqn:Hj; [lia|].
      exists (firstn j tl). split; [exact Hnth | reflexivity]. }
  destruct (call_tool_window_cases content start_index max_length Hm Hs)
    as [(Hout & _ & Hw) | [(Hmore & _ & Hw) | (Hend & _ & Hw)]]; rewrite Hw.
  - split; [discriminate | lia].
  - destruct Hhead as (c & rest & Hn & Hsl); [lia|]. rewrite Hsl.
    split; [discriminate|]. intros _. exists c. eexists. split; [exact Hn | reflexivity].
  - destruct Hhead as (c & rest & Hn & Hsl); [lia|]. rewrite Hsl.
    split; [discriminate|]. intros _. exists c, rest. split; [exact Hn | reflexivity].
Qed.

Lemma call_tool_window_nonempty_witness :
  0 < 3 /\ 0 <= 2 /\ call_tool_window (lit "Hello") 2 3 <> [].
Proof.
  split; [reflexivity|]. split; [discriminate|].
  apply (call_tool_window_nonempty (lit "Hello") 2 3); [reflexivity | discriminate].
Defined.

(** ** Reading a run backwards *)

Lemma exec_prog_bind_inv {A B} (p : Prog A) (f : A -> Prog B)
  (outs : list Outcome) (b : B) (reqs : list Request) :
  exec (prog_bind p f) outs = Some (b, reqs) ->
  exists outs1 outs2 a reqs1 reqs2,
    outs = outs1 ++ outs2 /\ reqs = reqs1 ++ reqs2
    /\ exec p outs1 = Some (a, reqs1) /\ exec (f a) outs2 = Some (b, reqs2).
Proof.
  revert outs reqs. induction p as [a|req k IH]; intros outs reqs Hrun.
  - exists [], outs, a, [], reqs. repeat split. exact Hrun.
  - destruct outs as [|o rest]; [discriminate|]. simpl in Hrun.
    destruct (exec (prog_bind (k o) f) rest) as [[b' reqs']|] eqn:Hk; [|discriminate].
    injection Hrun as -> <-.
    destruct (IH o rest reqs' Hk) as (outs1 & outs2 & a & reqs1 & reqs2 & -> & -> & Hp & Hf).
    exists (o :: outs1), outs2, a, (req :: reqs1), reqs2.
    repeat split; [| exact Hf]. simpl. rewrite Hp. reflexivity.
Qed.

Lemma exec_Ret_inv {A} (a b : A) (outs : list Outcome) (reqs : list Request) :
  exec (Ret a) outs = Some (b, reqs) -> outs = [] /\ reqs = [] /\ b = a.
Proof.
  simpl. destruct outs; [|discriminate]. intros H. injection H as <- <-.
  repeat split.
Qed.

Lemma exec_bind_inv {A B} (m : M A) (f : A -> M B)
  (outs : list Outcome) (r : result B) (reqs : list Request) :
  exec (bind m f) outs = Some (r, reqs) ->
  (exists e, exec m outs = Some (McpError e, reqs) /\ r = McpError e)
  \/ (exists x, exec m outs = Some (Uncaught x, reqs) /\ r = Uncaught x)
  \/ (exists outs1 outs2 a reqs1 reqs2,
        outs = outs1 ++ outs2 /\ reqs = reqs1 ++ reqs2
        /\ exec m outs1 = Some (Ok a, reqs1) /\ exec (f a) outs2 = Some (r, reqs2)).
Proof.
  intros Hrun. unfold bind in Hrun.
  apply exec_prog_bind_inv in Hrun.
  destruct Hrun as (outs1 & outs2 & [a|e|x] & reqs1 & reqs2 & -> & -> & Hm & Hf).
  - right. right. exists outs1, outs2, a, reqs1, reqs2. repeat split; assumption.
  - left. apply exec_Ret_inv in Hf. destruct Hf as (-> & -> & ->).
    exists e. rewrite !app_nil_r. split; [exact Hm | reflexivity].
  - right. left. apply exec_Ret_inv in Hf. destruct Hf as (-> & -> & ->).
    exists x. rewrite !app_nil_r. split; [exact Hm | reflexivity].
Qed.

(** A handler that makes one call and then ends. *)
Lemma exec_Get_Ret_inv {A} (req : Request) (k : Outcome -> Prog A)
  (outs : list Outcome) (a : A) (reqs : list Request) :
  (forall o, exists a', k o = Ret a') ->
  exec (Get req k) outs = Some (a, reqs) ->
  exists o, outs = [o] /\ reqs = [req] /\ k o = Ret a.
Proof.
  intros Hk Hrun. destruct outs as [|o rest]; [discriminate|].
  simpl in Hrun. destruct (Hk o) as [a' Ha']. rewrite Ha' in Hrun.
  destruct rest; [|discriminate]. simpl in Hrun. injection Hrun as <- <-.
  exists o. repeat split. exact Ha'.
Qed.

Section Runs.
Context {L : Libraries}.

(** The robots check makes exactly one request, and an error it raises is an
    internal error. *)
Lemma check_run_inv (url user_agent : str) (outs : list Outcome)
  (r : result unit) (reqs : list Request) :
  exec (check_may_autonomously_fetch_url url user_agent) outs = Some (r, reqs) ->
  exists o, outs = [o]
    /\ reqs = [robots_request (get_robots_txt_url url) user_agent]
    /\ (forall e, r = McpError e -> code e = INTERNAL_ERROR)
    /\ (forall x, r = Uncaught x <-> o = OtherException x).
Proof.
  unfold check_may_autonomously_fetch_url. intros Hrun.
  apply exec_Get_Ret_inv in Hrun.
  - destruct Hrun as (o & -> & -> & Hk). exists o.
    split; [reflexivity|]. split; [reflexivity|]. split.
    + intros e ->. revert Hk. destruct o as [response|e1 e2|x];
        repeat match goal with |- context [if ?b then _ else _] => destruct b end;
        intros Hk; inversion Hk; reflexivity.
    + intros x. revert Hk. destruct o as [response|e1 e2|x'];
        repeat match goal with |- context [if ?b then _ else _] => destruct b end;
        intros Hk; inversion Hk; split; intros Hx; inversion Hx; reflexivity.
  - intros [response|e1 e2|x];
      repeat match goal with |- context [if ?b then _ else _] => destruct b end;
      eexists; reflexivity.
Qed.

(** The fetch makes exactly one request, and an error it raises is an
    internal error. *)
Lemma fetch_url_run_inv (url user_agent : str) (force_raw : bool)
  (outs : list Outcome) (r : result (str * str)) (reqs : list Request) :
  exec (fetch_url url user_agent force_raw) outs = Some (r, reqs) ->
  exists o, outs = [o]
    /\ reqs = [fetch_request url user_agent]
    /\ (forall e, r = McpError e -> code e = INTERNAL_ERROR)
    /\ (forall x, r = Uncaught x <-> o = OtherException x).
Proof.
  unfold fetch_url. intros Hrun.
  apply exec_Get_Ret_inv in Hrun.
  - destruct Hrun as (o & -> & -> & Hk). exists o.
    split; [reflexivity|]. split; [reflexivity|]. split.
    + intros e ->. revert Hk. destruct o as [response|e1 e2|x];
        repeat match goal with |- context [if ?b then _ else _] => destruct b end;
        intros Hk; inversion Hk; reflexivity.
    + intros x. revert Hk. destruct o as [response|e1 e2|x'];
        repeat match goal with |- context [if ?b then _ else _] => destruct b end;
        intros Hk; inversion Hk; split; intros Hx; inversion Hx; reflexivity.
  - intros [response|e1 e2|x];
      repeat match goal with |- context [if ?b then _ else _] => destruct b end;
      eexists; reflexivity.
Qed.

Lemma Fetch_validate_bounds (arguments : FetchArguments) (args : Fetch) :
  Fetch_validate arguments = Some args ->
  0 < max_length args < 1000000 /\ 0 <= start_index args.
Proof.
  unfold Fetch_validate.
  destruct (arg_url arguments) as [u|]; [|discriminate].
  destruct (AnyUrl u) as [u'|]; [|discriminate].
  destruct (Z.ltb_spec 0 (or_default (arg_max_length arguments) 5000)); [|discriminate].
  destruct (Z.ltb_spec (or_default (arg_max_length arguments) 5000) 1000000);
    [|discriminate].
  destruct (Z.leb_spec 0 (or_default (arg_start_index arguments) 0)); [|discriminate].
  simpl. intros H2. injection H2 as <-. simpl. lia.
Qed.

(** Every way a run of the tool handler can go. *)
Lemma call_tool_run_inv (cfg : Config) (name : str) (arguments : FetchArguments)
  (outs : list Outcome) (r : result (list TextContent)) (reqs : list Request) :
  exec (call_tool cfg name arguments) outs = Some (r, reqs) ->
  (reqs = [] /\ outs = []
   /\ exists msg, r = McpError {| code := INVALID_PARAMS; message := msg |})
  \/ exists args,
       Fetch_validate arguments = Some args /\ url args <> []
       /\ ((exists e, r = McpError e /\ code e = INTERNAL_ERROR /\ reqs <> []
                      /\ forall y, ~ In (OtherException y) outs)
           \/ (exists x, r = Uncaught x /\ reqs <> []
                         /\ forall y, In (OtherException y) outs <-> y = x)
           \/ (exists content prefix o,
                 exec (fetch_url (url args) (user_agent_autonomous cfg) (raw args)) [o]
                 = Some (Ok (content, prefix),
                         [fetch_request (url args) (user_agent_autonomous cfg)])
                 /\ reqs = (if ignore_robots_txt cfg then []
                            else [robots_request (get_robots_txt_url (url args))
                                                 (user_agent_autonomous cfg)])
                           ++ [fetch_request (url args) (user_agent_autonomous cfg)]
                 /\ r = Ok [ {| type := lit "text";
                                text_of := call_tool_text prefix (url args)
                                             (call_tool_window content
                                                (start_index args)
                                                (max_length args)) |} ]
                 /\ forall y, ~ In (OtherException y) outs)).
Proof.
  unfold call_tool. intros Hrun.
  destruct (Fetch_validate arguments) as [args|] eqn:Hval.
  2:{ left. apply exec_Ret_inv in Hrun. destruct Hrun as (-> & -> & ->).
      repeat split. eexists; reflexivity. }
  destruct (url args) as [|c u] eqn:Hu.
  { left. apply exec_Ret_inv in Hrun. destruct Hrun as (-> & -> & ->).
    repeat split. eexists; reflexivity. }
  right. exists args. split; [reflexivity|]. rewrite Hu. split; [discriminate|].
  simpl truthy in Hrun. simpl negb in Hrun. cbv iota in Hrun.
  apply exec_bind_inv in Hrun.
  destruct Hrun as [(e & Hpol & ->) | [(x & Hpol & ->)
    | (outs1 & outs2 & [] & reqs1 & reqs2 & -> & -> & Hpol & Hrun)]].
  - left. exists e. split; [reflexivity|].
    destruct (ignore_robots_txt cfg); simpl in Hpol.
    + apply exec_Ret_inv in Hpol. destruct Hpol as (_ & _ & Hp). discriminate.
    + apply check_run_inv in Hpol. destruct Hpol as (o & -> & -> & Hcode & Hx).
      split; [apply Hcode; reflexivity|]. split; [discriminate|].
      intros y [Hy | []]. apply Hx in Hy. discriminate.
  - right. left. exists x. split; [reflexivity|].
    destruct (ignore_robots_txt cfg); simpl in Hpol.
    + apply exec_Ret_inv in Hpol. destruct Hpol as (_ & _ & Hp). discriminate.
    + apply check_run_inv in Hpol. destruct Hpol as (o & -> & -> & _ & Hx).
      split; [discriminate|].
      rewrite (proj1 (Hx x) eq_refl). intros y. split.
      * intros [Hy | []]. injection Hy as ->. reflexivity.
      * intros ->. left. reflexivity.
  - assert (Hpol' : reqs1 = (if ignore_robots_txt cfg then []
                             else [robots_request (get_robots_txt_url (c :: u))
                                                  (user_agent_autonomous cfg)])
                    /\ forall y, ~ In (OtherException y) outs1).
    { destruct (ignore_robots_txt cfg); simpl in Hpol.
      - apply exec_Ret_inv in Hpol. destruct Hpol as (-> & -> & _).
        split; [reflexivity | intros y []].
      - apply check_run_inv in Hpol. destruct Hpol as (o & -> & -> & _ & Hx).
        split; [reflexivity|]. intros y [Hy | []]. apply Hx in Hy. discriminate. }
    destruct Hpol' as [Hreqs1 Hno1].
    apply exec_bind_inv in Hrun.
    destruct Hrun as [(e & Hf & ->) | [(x & Hf & ->)
      | (o1 & o2 & [content prefix] & r1 & r2 & -> & -> & Hf & Hret)]].
    + left. exists e. split; [reflexivity|].
      apply fetch_url_run_inv in Hf. destruct Hf as (o & -> & -> & Hcode & Hx).
      split; [apply Hcode; reflexivity|].
      split; [destruct reqs1; discriminate|].
      intros y Hy. apply in_app_or in Hy. destruct Hy as [Hy | [Hy | []]].
      * exact (Hno1 y Hy).
      * apply Hx in Hy. discriminate.
    + right. left. exists x. split; [reflexivity|].
      apply fetch_url_run_inv in Hf. destruct Hf as (o & -> & -> & _ & Hx).
      split; [destruct reqs1; discriminate|].
      rewrite (proj1 (Hx x) eq_refl). intros y. split.
      * intros Hy. apply in_app_or in Hy. destruct Hy as [Hy | [Hy | []]].
        -- exfalso. exact (Hno1 y Hy).
        -- injection Hy as ->. reflexivity.
      * intros ->. apply in_or_app. right. left. reflexivity.
    + right. right. apply exec_Ret_inv in Hret. destruct Hret as (-> & -> & ->).
      pose proof Hf as Hf'.
      apply fetch_url_run_inv in Hf'. destruct Hf' as (o & -> & -> & _ & Hx).
      exists content, prefix, o. rewrite <- Hreqs1.
      split; [exact Hf|]. split; [reflexivity|]. split; [reflexivity|].
      intros y Hy. apply in_app_or in Hy. destruct Hy as [Hy | [Hy | []]].
      * exact (Hno1 y Hy).
      * apply Hx in Hy. discriminate.
Qed.

End Runs.

(** ** What a run of the handlers shows *)

Lemma exec_bind_error {A B} (m : M A) (f : A -> M B)
  (outs : list Outcome) (e : ErrorData) (reqs : list Request) :
  exec m outs = Some (McpError e, reqs) ->
  exec (bind m f) outs = Some (McpError e, reqs).
Proof.
  intros Hm. unfold bind.
  rewrite <- (app_nil_r outs). rewrite (exec_prog_bind _ _ _ _ _ _ Hm).
  simpl. rewrite app_nil_r. reflexivity.
Qed.

Section ToolRuns.
Context {L : Libraries}.

(** X3: an [McpError] the tool handler raises is an invalid-parameters error
    exactly when the handler made no request, and an internal error exactly
    when it made one: the arguments are rejected before anything is sent.  An
    exception of [client.get] that is no [HTTPError] is not turned into an
    [McpError]: a run ends with an exception nothing caught exactly when a
    request raised one, it is then that exception, and a request was made. *)
Theorem call_tool_error_codes (cfg : Config) (name : str)
  (arguments : FetchArguments) (outs : list Outcome)
  (r : result (list TextContent)) (reqs : list Request) :
  exec (call_tool cfg name arguments) outs = Some (r, reqs) ->
  (forall e, r = McpError e ->
     (code e = INVALID_PARAMS <-> reqs = [])
     /\ (code e = INTERNAL_ERROR <-> reqs <> []))
  /\ (forall x, r = Uncaught x <-> In (OtherException x) outs)
  /\ (forall x, r = Uncaught x -> reqs <> []).
Proof.
  intros Hrun. apply call_tool_run_inv in Hrun.
  destruct Hrun as [(-> & -> & msg & Hr)
    | (args & _ & _ & [(e' & Hr & Hc & Hn & Hno)
                      | [(x' & Hr & Hn & Hin)
                        | (c & p & o & _ & _ & Hr & Hno)]])];
    subst r; (split; [|split]); intros z; try (intros Hz; discriminate).
  - intros Hz. injection Hz as <-. simpl. repeat split; intros; congruence.
  - split; [intros Hz; discriminate | intros []].
  - intros Hz. injection Hz as <-. rewrite Hc. repeat split; intros; congruence.
  - split; [intros Hz; discriminate | intros Hz; exfalso; exact (Hno z Hz)].
  - split; [intros Hz; injection Hz as <-; apply Hin; reflexivity|].
    intros Hz. apply Hin in Hz. rewrite Hz. reflexivity.
  - intros _. exact Hn.
  - split; [intros Hz; discriminate | intros Hz; exfalso; exact (Hno z Hz)].
Qed.

(** X4: a successful tool call returns exactly one text item: the prefix, the
    [Contents of] header with the validated URL, and a non-empty window of the
    fetched content taken with the validated bounds; the page fetch is its
    last request, after the robots request when the check is enforced. *)
Theorem call_tool_success_shape (cfg : Config) (name : str)
  (arguments : FetchArguments) (outs : list Outcome)
  (items : list TextContent) (reqs : list Request) :
  exec (call_tool cfg name arguments) outs = Some (Ok items, reqs) ->
  exists args content prefix o,
    Fetch_validate arguments = Some args
    /\ 0 < max_length args < 1000000 /\ 0 <= start_index args
    /\ exec (fetch_url (url args) (user_agent_autonomous cfg) (raw args)) [o]
       = Some (Ok (content, prefix),
               [fetch_request (url args) (user_agent_autonomous cfg)])
    /\ items = [ {| type := lit "text";
                    text_of := prefix ++ lit "Contents of " ++ url args ++ lit ":
" ++ call_tool_window content (start_index args) (max_length args) |} ]
    /\ call_tool_window content (start_index args) (max_length args) <> []
    /\ reqs = (if ignore_robots_txt cfg then []
               else [robots_request (get_robots_txt_url (url args))
                                    (user_agent_autonomous cfg)])
              ++ [fetch_request (url args) (user_agent_autonomous cfg)].
Proof.
  intros Hrun. apply call_tool_run_inv in Hrun.
  destruct Hrun as [(_ & _ & msg & Hr)
    | (args & Hval & _ & [(e' & Hr & _) | [(x' & Hr & _)
                                         | (c & p & o & Hf & Hreqs & Hr & _)]])];
    try discriminate.
  injection Hr as ->.
  destruct (Fetch_validate_bounds arguments args Hval) as [Hm Hs].
  exists args, c, p, o. repeat split; try assumption; try lia.
  destruct (call_tool_window_cases c (start_index args) (max_length args))
    as [(_ & _ & Hw) | [(_ & Hlen & Hw) | (Hend & Hlen & Hw)]];
    try lia; rewrite Hw; intros Hnil.
  - discriminate.
  - apply (f_equal len) in Hnil. rewrite len_app, Hlen in Hnil.
    pose proof (truncation_hint_nonempty (start_index args + max_length args)).
    change (len (@nil char)) with 0 in Hnil. lia.
  - rewrite Hnil in Hlen. change (len (@nil char)) with 0 in Hlen. lia.
Qed.

(** X5: when the robots check is enforced and raises, for whatever reason, the
    tool call ends with that very error after the robots request alone: the
    page is not requested. *)
Theorem call_tool_policy_gate (cfg : Config) (name : str)
  (arguments : FetchArguments) (args : Fetch) (o : Outcome) (e : ErrorData)
  (reqs : list Request) :
  Fetch_validate arguments = Some args ->
  url args <> [] ->
  ignore_robots_txt cfg = false ->
  exec (check_may_autonomously_fetch_url (url args) (user_agent_autonomous cfg)) [o]
  = Some (McpError e, reqs) ->
  exec (call_tool cfg name arguments) [o]
  = Some (McpError e, [robots_request (get_robots_txt_url (url args))
                                      (user_agent_autonomous cfg)])
  /\ forall o' more, exec (call_tool cfg name arguments) (o :: o' :: more) = None.
Proof.
  intros Hval Hurl Hign Hcheck.
  assert (Hreqs : reqs = [robots_request (get_robots_txt_url (url args))
                                         (user_agent_autonomous cfg)]).
  { apply check_run_inv in Hcheck. destruct Hcheck as (_ & _ & -> & _). reflexivity. }
  subst reqs.
  assert (Hshape : forall outs,
            exec (call_tool cfg name arguments) outs
            = exec (bind (check_may_autonomously_fetch_url (url args)
                            (user_agent_autonomous cfg))
                         (fun _ =>
                            r <- fetch_url (url args) (user_agent_autonomous cfg)
                                           (raw args) ;;
                            let '(content, prefix) := r in
                            ret [ {| type := lit "text";
                                     text_of := call_tool_text prefix (url args)
                                                  (call_tool_window content
                                                     (start_index args)
                                                     (max_length args)) |} ]))
                   outs).
  { intros outs. unfold call_tool. rewrite Hval, Hign.
    destruct (url args); [congruence | reflexivity]. }
  split.
  - rewrite Hshape. apply exec_bind_error, Hcheck.
  - intros o' more. rewrite Hshape.
    match goal with |- ?x = None => destruct x as [[r reqs]|] eqn:Hrun end;
      [exfalso | reflexivity].
    apply exec_bind_inv in Hrun.
    destruct Hrun as [(e' & Hc & _) | [(x' & Hc & _)
      | (outs1 & outs2 & a & r1 & r2 & Hsplit & _ & Hc & _)]].
    + apply check_run_inv in Hc. destruct Hc as (x & Hx & _). discriminate.
    + apply check_run_inv in Hc. destruct Hc as (x & Hx & _). discriminate.
    + pose proof Hc as Hc'. apply check_run_inv in Hc'.
      destruct Hc' as (x & -> & _). injection Hsplit as <- _.
      rewrite Hcheck in Hc. discriminate.
Qed.

(** X6: a transport failure of the robots request is not read as the absence of a
    policy: the tool call raises the connection error and the page is not
    requested. *)
Theorem call_tool_robots_unreachable (cfg : Config) (name : str)
  (arguments : FetchArguments) (args : Fetch) (e_str e_repr : str) :
  Fetch_validate arguments = Some args ->
  url args <> [] ->
  ignore_robots_txt cfg = false ->
  exec (call_tool cfg name arguments) [HTTPError e_str e_repr]
  = Some (McpError
            {| code := INTERNAL_ERROR;
               message := lit "Failed to fetch robots.txt "
                          ++ get_robots_txt_url (url args)
                          ++ lit " due to a connection issue" |},
          [robots_request (get_robots_txt_url (url args))
                          (user_agent_autonomous cfg)]).
Proof.
  intros Hval Hurl Hign. unfold call_tool. rewrite Hval, Hign.
  destruct (url args) as [|c u] eqn:Hu; [congruence|].
  simpl truthy. simpl negb. cbv iota.
  apply exec_bind_error. reflexivity.
Qed.

End ToolRuns.

Lemma call_tool_error_codes_witness :
  exec (@call_tool example_libraries example_config (lit "fetch")
          example_arguments_at_end)
       [Responded (robots_response 403 [])]
  = Some (McpError {| code := INTERNAL_ERROR;
                      message := robots_status_message
                                   (lit "http://example.com/robots.txt") 403 |},
          [robots_request (lit "http://example.com/robots.txt")
                          DEFAULT_USER_AGENT_AUTONOMOUS])
  /\ ([robots_request (lit "http://example.com/robots.txt")
                      DEFAULT_USER_AGENT_AUTONOMOUS] <> [])
  /\ exec (@call_tool example_libraries example_config (lit "fetch")
             example_arguments_at_end)
          [Responded (robots_response 404 []);
           OtherException (lit "InvalidURL")]
     = Some (Uncaught (lit "InvalidURL"),
             [robots_request (lit "http://example.com/robots.txt")
                             DEFAULT_USER_AGENT_AUTONOMOUS;
              fetch_request example_url DEFAULT_USER_AGENT_AUTONOMOUS]).
Proof.
  split; [vm_compute; reflexivity|]. split; [|vm_compute; reflexivity].
  apply (proj2 (proj1 (@call_tool_error_codes example_libraries example_config
                         (lit "fetch") example_arguments_at_end
                         [Responded (robots_response 403 [])]
                         _ _ ltac:(vm_compute; reflexivity)) _ eq_refl)).
  reflexivity.
Defined.

Lemma call_tool_success_shape_witness :
  exec (@call_tool example_libraries example_config (lit "fetch")
          example_arguments_at_end)
       [Responded (robots_response 404 []); Responded example_page]
  = Some (Ok [ {| type := lit "text";
                  text_of := lit "Contents of http://example.com/page:
<error>No more content available.</error>" |} ],
          [robots_request (lit "http://example.com/robots.txt")
                          DEFAULT_USER_AGENT_AUTONOMOUS;
           fetch_request example_url DEFAULT_USER_AGENT_AUTONOMOUS])
  /\ exists args,
       @Fetch_validate example_libraries example_arguments_at_end = Some args
       /\ 0 < max_length args < 1000000.
Proof.
  split; [vm_compute; reflexivity|].
  destruct (@call_tool_success_shape example_libraries example_config (lit "fetch")
              example_arguments_at_end
              [Responded (robots_response 404 []); Responded example_page]
              _ _ ltac:(vm_compute; reflexivity))
    as (args & _ & _ & _ & Hval & Hm & _).
  exists args. split; assumption.
Defined.

Lemma call_tool_policy_gate_witness :
  @Fetch_validate example_libraries example_arguments_at_end = Some example_args_at_end
  /\ url example_args_at_end <> []
  /\ ignore_robots_txt example_config = false
  /\ exec (@call_tool example_libraries example_config (lit "fetch")
             example_arguments_at_end)
          [Responded (robots_response 200 example_robots_deny);
           Responded example_page] = None.
Proof.
  split; [reflexivity|]. split; [discriminate|]. split; [reflexivity|].
  refine (proj2 (@call_tool_policy_gate example_libraries example_config (lit "fetch")
                   example_arguments_at_end example_args_at_end
                   (Responded (robots_response 200 example_robots_deny))
                   _ _ eq_refl _ eq_refl _) _ _).
  - discriminate.
  - vm_compute. reflexivity.
Defined.

Lemma call_tool_robots_unreachable_witness :
  @Fetch_validate example_libraries example_arguments_at_end = Some example_args_at_end
  /\ url example_args_at_end <> []
  /\ ignore_robots_txt example_config = false
  /\ exec (@call_tool example_libraries example_config (lit "fetch")
             example_arguments_at_end)
          [HTTPError (lit "timed out") (lit "ConnectTimeout('timed out')")]
     = Some (McpError
               {| code := INTERNAL_ERROR;
                  message := lit "Failed to fetch robots.txt "
                             ++ @get_robots_txt_url example_libraries
                                  (url example_args_at_end)
                             ++ lit " due to a connection issue" |},
             [robots_request (@get_robots_txt_url example_libraries
                                (url example_args_at_end))
                             (user_agent_autonomous example_config)]).
Proof.
  split; [reflexivity|]. split; [discriminate|]. split; [reflexivity|].
  apply (@call_tool_robots_unreachable example_libraries example_config (lit "fetch")
           example_arguments_at_end example_args_at_end);
    [reflexivity | discriminate | reflexivity].
Defined.

(** ** The resource fetch and the prompt handler *)

Section FetchRuns.
Context {L : Libraries}.

Lemma fetch_url_transport (url user_agent : str) (force_raw : bool)
  (e_str e_repr : str) :
  exec (fetch_url url user_agent force_raw) [HTTPError e_str e_repr]
  = Some (McpError {| code := INTERNAL_ERROR;
                      message := lit "Failed to fetch " ++ url ++ lit ": " ++ e_repr |},
          [fetch_request url user_agent]).
Proof. reflexivity. Qed.

Lemma fetch_url_bad_status (url user_agent : str) (force_raw : bool)
  (response : Response) :
  400 <= status_code response ->
  exec (fetch_url url user_agent force_raw) [Responded response]
  = Some (McpError {| code := INTERNAL_ERROR;
                      message := lit "Failed to fetch " ++ url
                                 ++ lit " - status code "
                                 ++ str_of_int (status_code response) |},
          [fetch_request url user_agent]).
Proof.
  intros Hst. unfold fetch_url. simpl.
  destruct (Z.geb_spec (status_code response) 400); [reflexivity | lia].
Qed.

Lemma fetch_url_ok (url user_agent : str) (force_raw : bool) (response : Response) :
  status_code response < 400 ->
  exec (fetch_url url user_agent force_raw) [Responded response]
  = Some (Ok (if is_page_html (text response) (headers_get_content_type response)
                 && negb force_raw
              then (extract_content_from_html (text response), [])
              else (text response,
                    raw_prefix (headers_get_content_type response))),
          [fetch_request url user_agent]).
Proof.
  intros Hst. unfold fetch_url. simpl.
  destruct (Z.geb_spec (status_code response) 400); [lia|].
  destruct (is_page_html _ _ && negb force_raw); reflexivity.
Qed.

Lemma raw_prefix_nonempty (content_type : str) : raw_prefix content_type <> [].
Proof. unfold raw_prefix. discriminate. Qed.

Lemma fetch_url_other (url user_agent : str) (force_raw : bool) (exc : str) :
  exec (fetch_url url user_agent force_raw) [OtherException exc]
  = Some (Uncaught exc, [fetch_request url user_agent]).
Proof. reflexivity. Qed.

Lemma fetch_url_runs (url user_agent : str) (force_raw : bool) (o : Outcome) :
  exists r,
    exec (fetch_url url user_agent force_raw) [o]
    = Some (r, [fetch_request url user_agent]).
Proof.
  destruct o as [response|e_str e_repr|exc].
  - destruct (Z.lt_ge_cases (status_code response) 400) as [Hlt|Hge].
    + rewrite fetch_url_ok by assumption. eexists. reflexivity.
    + rewrite fetch_url_bad_status by assumption. eexists. reflexivity.
  - rewrite fetch_url_transport. eexists. reflexivity.
  - rewrite fetch_url_other. eexists. reflexivity.
Qed.

(** X7: whatever the network answers, the fetch makes its one request and then
    returns content exactly when a response came with a status below 400;
    a transport failure and a status of 400 or more raise an internal error
    whose message starts with [Failed to fetch] and the URL; an exception of
    the request that is no [HTTPError] goes through uncaught. *)
Theorem fetch_url_status (url user_agent : str) (force_raw : bool) (o : Outcome) :
  exists r,
    exec (fetch_url url user_agent force_raw) [o]
    = Some (r, [fetch_request url user_agent])
    /\ ((exists content prefix, r = Ok (content, prefix))
        <-> exists response, o = Responded response /\ status_code response < 400)
    /\ (forall e, r = McpError e ->
          code e = INTERNAL_ERROR
          /\ exists rest, message e = lit "Failed to fetch " ++ url ++ rest)
    /\ ((exists e, r = McpError e)
        <-> (exists e_str e_repr, o = HTTPError e_str e_repr)
            \/ (exists response, o = Responded response /\ 400 <= status_code response))
    /\ (forall exc, r = Uncaught exc <-> o = OtherException exc).
Proof.
  destruct o as [response|e_str e_repr|exc].
  - destruct (Z.lt_ge_cases (status_code response) 400) as [Hlt|Hge].
    + rewrite fetch_url_ok by assumption.
      eexists. split; [reflexivity|]. split; [|split; [|split]].
      * split; [intros _; exists response; split; [reflexivity | exact Hlt]|].
        intros _.
        destruct (is_page_html _ _ && negb force_raw); eexists; eexists; reflexivity.
      * intros e He. discriminate.
      * split; [intros (e & He); discriminate|].
        intros [(a & b & Ho) | (resp & Ho & Hst)]; [discriminate|].
        injection Ho as <-. lia.
      * intros x. split; intros Hx; discriminate.
    + rewrite fetch_url_bad_status by assumption.
      eexists. split; [reflexivity|]. split; [|split; [|split]].
      * split; [intros (c & p & H); discriminate|].
        intros (resp & Hresp & Hlt). injection Hresp as <-. lia.
      * intros e He. injection He as <-. split; [reflexivity|].
        exists (lit " - status code " ++ str_of_int (status_code response)).
        reflexivity.
      * split; [|intros _; eexists; reflexivity].
        intros _. right. exists response. split; [reflexivity | exact Hge].
      * intros x. split; intros Hx; discriminate.
  - rewrite fetch_url_transport.
    eexists. split; [reflexivity|]. split; [|split; [|split]].
    + split; [intros (c & p & H); discriminate | intros (resp & Hresp & _); discriminate].
    + intros e He. injection He as <-. split; [reflexivity|].
      exists (lit ": " ++ e_repr). reflexivity.
    + split; [|intros _; eexists; reflexivity].
      intros _. left. exists e_str, e_repr. reflexivity.
    + intros x. split; intros Hx; discriminate.
  - rewrite fetch_url_other.
    eexists. split; [reflexivity|]. split; [|split; [|split]].
    + split; [intros (c & p & H); discriminate | intros (resp & Hresp & _); discriminate].
    + intros e He. discriminate.
    + split; [intros (e & He); discriminate|].
      intros [(a & b & Ho) | (resp & Ho & _)]; discriminate.
    + intros x. split; intros Hx; injection Hx as ->; reflexivity.
Qed.

(** X8: the prefix tells whether the content was simplified: it is empty exactly
    when the body was classified as HTML and raw mode was off, and the content
    is then the extraction; otherwise the content is the body unchanged and
    the prefix quotes the content type. *)
Theorem fetch_url_content (url user_agent : str) (force_raw : bool)
  (response : Response) :
  status_code response < 400 ->
  exists content prefix,
    exec (fetch_url url user_agent force_raw) [Responded response]
    = Some (Ok (content, prefix), [fetch_request url user_agent])
    /\ (prefix = []
        <-> is_page_html (text response) (headers_get_content_type response) = true
            /\ force_raw = false)
    /\ (prefix = [] -> content = extract_content_from_html (text response))
    /\ (prefix <> [] ->
          content = text response
          /\ prefix = lit "Content type " ++ headers_get_content_type response
                      ++ lit " cannot be simplified to markdown, but here is the raw content:
").
Proof.
  intros Hst. rewrite fetch_url_ok by assumption.
  pose proof (raw_prefix_nonempty (headers_get_content_type response)) as Hne.
  destruct (is_page_html (text response) (headers_get_content_type response)),
           force_raw; simpl andb; cbv iota;
    eexists; eexists; (split; [reflexivity|]);
    (split; [split; [intros Hp | intros [Hh Hr]]
            | split; [intros Hp | intros Hp]]);
    try congruence; try (split; reflexivity); try reflexivity.
Qed.

(** X9: a page from which the extraction finds no content is not an error:
    with or without the robots check, once the check (when enforced) has
    passed, the tool call succeeds, and what it windows is the sentinel
    [<error>Page failed to be simplified from HTML</error>]. *)
Theorem call_tool_simplify_failed (cfg : Config) (name : str)
  (arguments : FetchArguments) (args : Fetch)
  (policy_outcomes : list Outcome) (policy_requests : list Request)
  (response : Response) :
  Fetch_validate arguments = Some args ->
  url args <> [] ->
  exec (if negb (ignore_robots_txt cfg)
        then check_may_autonomously_fetch_url (url args) (user_agent_autonomous cfg)
        else ret tt) policy_outcomes
  = Some (Ok tt, policy_requests) ->
  raw args = false ->
  status_code response < 400 ->
  is_page_html (text response) (headers_get_content_type response) = true ->
  simple_json_content (text response) = None
  \/ simple_json_content (text response) = Some [] ->
  exec (call_tool cfg name arguments) (policy_outcomes ++ [Responded response])
  = Some (Ok [ {| type := lit "text";
                  text_of := lit "Contents of " ++ url args ++ lit ":
" ++ call_tool_window (lit "<error>Page failed to be simplified from HTML</error>")
                      (start_index args) (max_length args) |} ],
          policy_requests ++ [fetch_request (url args) (user_agent_autonomous cfg)])
  /\ (start_index args = 0 -> 53 <= max_length args ->
      call_tool_window (lit "<error>Page failed to be simplified from HTML</error>")
                       (start_index args) (max_length args)
      = lit "<error>Page failed to be simplified from HTML</error>").
Proof.
  intros Hval Hurl Hpolicy Hraw Hst Hhtml Hnone. split.
  - rewrite (call_tool_returns cfg name arguments args policy_outcomes
               policy_requests (Responded response)
               SIMPLIFY_FAILED [] Hval Hurl Hpolicy).
    + reflexivity.
    + rewrite fetch_url_ok by assumption. rewrite Hhtml, Hraw. simpl andb. cbv iota.
      unfold extract_content_from_html.
      destruct Hnone as [-> | ->]; reflexivity.
  - intros Hs Hm. rewrite Hs.
    destruct (call_tool_window_cases SIMPLIFY_FAILED 0 (max_length args))
      as [(Hout & _) | [(Hmore & _) | (_ & _ & Hw)]]; try lia.
    + change (len SIMPLIFY_FAILED) with 53 in Hout. lia.
    + change (len SIMPLIFY_FAILED) with 53 in Hmore. lia.
    + change (lit "<error>Page failed to be simplified from HTML</error>")
        with SIMPLIFY_FAILED.
      rewrite Hw. apply py_slice_all. change (len SIMPLIFY_FAILED) with 53. lia.
Qed.

(** X10: the prompt handler raises [URL is required] only for a missing [url]
    argument, before any request; given a URL it makes the one fetch, without
    validating the URL, and for a response or an [HTTPError] it returns a
    result: the prefix and the whole content, unwindowed, under [Contents of],
    or the message of the fetch error under [Failed to fetch].  An exception
    of the request that is no [HTTPError] is caught by nothing: the handler
    ends with it. *)
Theorem get_prompt_outcomes (cfg : Config) (name : str)
  (arguments : option (list (str * str))) :
  (arguments = None \/ (exists d, arguments = Some d /\ dict_get d (lit "url") = None) ->
     get_prompt cfg name arguments
     = Ret (McpError {| code := INVALID_PARAMS; message := lit "URL is required" |}))
  /\ (forall d url o,
        arguments = Some d -> dict_get d (lit "url") = Some url ->
        exists fetched r,
          exec (fetch_url url (user_agent_manual cfg) false) [o]
          = Some (fetched, [fetch_request url (user_agent_manual cfg)])
          /\ exec (get_prompt cfg name arguments) [o]
             = Some (r, [fetch_request url (user_agent_manual cfg)])
          /\ (forall content prefix, fetched = Ok (content, prefix) ->
                r = Ok {| description := lit "Contents of " ++ url;
                          messages := [ {| role := lit "user";
                                           content_of :=
                                             {| type := lit "text";
                                                text_of := prefix ++ content |} |} ] |})
          /\ (forall e, fetched = McpError e ->
                r = Ok {| description := lit "Failed to fetch " ++ url;
                          messages := [ {| role := lit "user";
                                           content_of :=
                                             {| type := lit "text";
                                                text_of := message e |} |} ] |})
          /\ ((exists result, r = Ok result)
              <-> (exists response, o = Responded response)
                  \/ (exists e_str e_repr, o = HTTPError e_str e_repr))
          /\ (forall exc, o = OtherException exc <-> r = Uncaught exc)).
Proof.
  split.
  - intros [-> | (d & -> & Hd)]; unfold get_prompt; [|rewrite Hd]; reflexivity.
  - intros d url o -> Hd. unfold get_prompt. rewrite Hd.
    assert (Hcases :
      (exists response a, o = Responded response
         /\ exec (fetch_url url (user_agent_manual cfg) false) [o]
            = Some (Ok a, [fetch_request url (user_agent_manual cfg)]))
      \/ (exists e, ((exists response, o = Responded response)
                     \/ exists e_str e_repr, o = HTTPError e_str e_repr)
            /\ exec (fetch_url url (user_agent_manual cfg) false) [o]
               = Some (McpError e, [fetch_request url (user_agent_manual cfg)]))
      \/ (exists exc, o = OtherException exc
            /\ exec (fetch_url url (user_agent_manual cfg) false) [o]
               = Some (Uncaught exc, [fetch_request url (user_agent_manual cfg)]))).
    { destruct o as [response|e_str e_repr|exc].
      - destruct (Z.lt_ge_cases (status_code response) 400) as [Hlt|Hge].
        + left. exists response. eexists. split; [reflexivity|].
          apply fetch_url_ok, Hlt.
        + right. left. eexists. split; [left; exists response; reflexivity|].
          apply fetch_url_bad_status, Hge.
      - right. left. eexists. split; [right; exists e_str, e_repr; reflexivity|].
        apply fetch_url_transport.
      - right. right. exists exc. split; [reflexivity | apply fetch_url_other]. }
    change [o] with ([o] ++ []) at 2.
    destruct Hcases as [(response & [content prefix] & Ho & Hr)
                       | [(e & Ho & Hr) | (exc & Ho & Hr)]];
      rewrite (exec_prog_bind _ _ _ _ _ _ Hr); simpl app; cbv beta iota;
      eexists; eexists; (split; [exact Hr|]); (split; [reflexivity|]).
    + split; [intros c p Hc; injection Hc as <- <-; reflexivity|].
      split; [intros e He; discriminate|].
      split.
      * split; [intros _; left; exists response; exact Ho
               | intros _; eexists; reflexivity].
      * intros x. split; [intros Hx; rewrite Ho in Hx; discriminate
                         | intros Hx; discriminate].
    + split; [intros c p Hc; discriminate|].
      split; [intros e' He; injection He as <-; reflexivity|].
      split.
      * split; [intros _; exact Ho | intros _; eexists; reflexivity].
      * intros x. split; [|intros Hx; discriminate].
        intros Hx. destruct Ho as [(resp & Ho) | (a & b & Ho)];
          rewrite Ho in Hx; discriminate.
    + split; [intros c p Hc; discriminate|].
      split; [intros e' He; discriminate|].
      split.
      * split; [intros (res & Hres); discriminate|].
        intros [(resp & Ho') | (a & b & Ho')]; rewrite Ho in Ho'; discriminate.
      * intros x. rewrite Ho. split; intros Hx; injection Hx as ->; reflexivity.
Qed.

(** X11: the robots file is requested by the tool handler with the check enforced
    and by nothing else: with the check switched off every request of the tool
    handler is the fetch of the validated URL, and every request of the prompt
    handler is the fetch of the URL it was given. *)
Theorem robots_only_for_enforced_tool (cfg : Config) (name : str)
  (arguments : FetchArguments) (prompt_arguments : option (list (str * str))) :
  (ignore_robots_txt cfg = true ->
     all_requests (fun r => exists args,
                      Fetch_validate arguments = Some args
                      /\ r = fetch_request (url args) (user_agent_autonomous cfg))
                  (call_tool cfg name arguments))
  /\ all_requests (fun r => exists d url,
                     prompt_arguments = Some d
                     /\ dict_get d (lit "url") = Some url
                     /\ r = fetch_request url (user_agent_manual cfg))
                  (get_prompt cfg name prompt_arguments).
Proof.
  split.
  - intros Hign. unfold call_tool. rewrite Hign.
    destruct (Fetch_validate arguments) as [args|]; [|exact I].
    destruct (negb (truthy (url args))); [exact I|].
    simpl negb. cbv iota.
    apply all_requests_bind; [exact I|]. intros _.
    apply all_requests_bind.
    + unfold fetch_url. simpl. split; [exists args; split; reflexivity|].
      intros [response|e1 e2|x]; [|exact I|exact I].
      repeat match goal with |- context [if ?b then _ else _] => destruct b end;
        exact I.
    + intros [content prefix]. exact I.
  - unfold get_prompt.
    destruct prompt_arguments as [d|]; [|exact I].
    destruct (dict_get d (lit "url")) as [url|] eqn:Hd; [|exact I].
    apply all_requests_prog_bind.
    + unfold fetch_url. simpl. split; [exists d, url; repeat split; assumption|].
      intros [response|e1 e2|x]; [|exact I|exact I].
      repeat match goal with |- context [if ?b then _ else _] => destruct b end;
        exact I.
    + intros [[content prefix]|e|x]; exact I.
Qed.

End FetchRuns.

(** ** The comment lines, characterised *)

(** X13: the lines the check drops are those whose first character after leading
    white space is [#]: an indented comment is dropped too, and a rule
    followed by a comment on the same line is kept. *)
Theorem is_comment_line_iff (line : str) :
  is_comment_line line = true
  <-> exists ws rest,
        line = ws ++ 35%N :: rest /\ Forall (fun c => is_space c = true) ws.
Proof. exact (is_comment_line_spec line). Qed.

Lemma In_join (sep : str) (ls : list str) (c : char) :
  In c (join sep ls) -> In c sep \/ exists l, In l ls /\ In c l.
Proof.
  induction ls as [|x ls IH]; [intros []|].
  destruct ls as [|y ls'].
  - simpl. intros Hin. right. exists x. split; [left; reflexivity | exact Hin].
  - change (join sep (x :: y :: ls')) with (x ++ sep ++ join sep (y :: ls')).
    rewrite !in_app_iff. intros [Hx | [Hsep | Hrest]].
    + right. exists x. split; [left; reflexivity | exact Hx].
    + left. exact Hsep.
    + destruct (IH Hrest) as [Hs | (l & Hl & Hc)]; [left; exact Hs|].
      right. exists l. split; [right; exact Hl | exact Hc].
Qed.

Lemma processed_robot_txt_only_line_feed (robot_txt : str) (c : char) :
  In c (processed_robot_txt robot_txt) -> is_linebreak c = true -> c = 10%N.
Proof.
  unfold processed_robot_txt. intros Hin Hbreak.
  apply In_join in Hin. destruct Hin as [Hsep | (l & Hl & Hc)].
  - destruct Hsep as [<- | []]. reflexivity.
  - exfalso. apply filter_In in Hl. destruct Hl as [Hl _].
    pose proof (splitlines_no_break robot_txt) as Hnb.
    rewrite Forall_forall in Hnb. specialize (Hnb l Hl).
    unfold no_break in Hnb. rewrite Forall_forall in Hnb.
    rewrite (Hnb c Hc) in Hbreak. discriminate.
Qed.

(** A line followed by any line boundary is split off whole. *)
Lemma splitlines_boundary (b : char) (l l2 : str) :
  is_linebreak b = true -> no_break l -> no_break l2 ->
  splitlines (l ++ b :: l2) = l :: splitlines l2.
Proof.
  intros Hb Hl Hl2. induction Hl as [|c l Hc Hl IH].
  - simpl. rewrite Hb. f_equal.
    destruct (b =? 13)%N; [|reflexivity].
    destruct Hl2 as [|d l2 Hd Hl2]; [reflexivity|].
    destruct (N.eqb_spec d 10) as [->|_]; [discriminate | reflexivity].
  - change ((c :: l) ++ b :: l2) with (c :: (l ++ b :: l2)).
    rewrite splitlines_cons_plain by assumption. rewrite IH. reflexivity.
Qed.

(** A carriage return and line feed after a line are one boundary. *)
Lemma splitlines_crlf (l rest : str) :
  no_break l -> splitlines (l ++ 13%N :: 10%N :: rest) = l :: splitlines rest.
Proof.
  induction 1 as [|c l Hc Hl IH]; [reflexivity|].
  change ((c :: l) ++ 13%N :: 10%N :: rest) with (c :: (l ++ 13%N :: 10%N :: rest)).
  rewrite splitlines_cons_plain by assumption. rewrite IH. reflexivity.
Qed.

Lemma processed_two_lines (l1 l2 : str) :
  no_break l2 -> l2 <> [] ->
  is_comment_line l1 = false -> is_comment_line l2 = false ->
  join (lit "
") (filter (fun line => negb (is_comment_line line)) (l1 :: splitlines l2))
  = l1 ++ 10%N :: l2.
Proof.
  intros Hl2 Hne H1 H2. rewrite splitlines_one by assumption.
  destruct l2 as [|d l2]; [congruence|].
  simpl filter. rewrite H1, H2. reflexivity.
Qed.

(** X14: the text handed to the parser has its line endings normalised.  None
    of the other line boundaries of a Python string (vertical tab, form feed,
    carriage return, the file, group and record separators, next line, the
    Unicode line and paragraph separators) is left in it; two lines parted by
    any one of the boundaries reach the parser parted by a line feed, and so
    do two lines parted by a carriage return and line feed. *)
Theorem processed_robot_txt_line_feeds :
  (forall robot_txt c,
     In c (processed_robot_txt robot_txt) ->
     ~ In c [11; 12; 13; 28; 29; 30; 133; 8232; 8233]%N)
  /\ (forall b l1 l2,
        In b [10; 11; 12; 13; 28; 29; 30; 133; 8232; 8233]%N ->
        no_break l1 -> no_break l2 -> l2 <> [] ->
        is_comment_line l1 = false -> is_comment_line l2 = false ->
        processed_robot_txt (l1 ++ b :: l2) = l1 ++ 10%N :: l2)
  /\ (forall l1 l2,
        no_break l1 -> no_break l2 -> l2 <> [] ->
        is_comment_line l1 = false -> is_comment_line l2 = false ->
        processed_robot_txt (l1 ++ 13%N :: 10%N :: l2) = l1 ++ 10%N :: l2).
Proof.
  split; [|split].
  - intros robot_txt c Hin Hbad.
    assert (Hbreak : is_linebreak c = true).
    { simpl in Hbad.
      repeat (destruct Hbad as [<- | Hbad]; [reflexivity|]). destruct Hbad. }
    pose proof (processed_robot_txt_only_line_feed robot_txt c Hin Hbreak) as ->.
    simpl in Hbad.
    repeat (destruct Hbad as [Hbad | Hbad]; [discriminate|]). exact Hbad.
  - intros b l1 l2 Hb Hl1 Hl2 Hne H1 H2.
    assert (Hbreak : is_linebreak b = true).
    { simpl in Hb.
      repeat (destruct Hb as [<- | Hb]; [reflexivity|]). destruct Hb. }
    unfold processed_robot_txt.
    rewrite splitlines_boundary by assumption.
    apply processed_two_lines; assumption.
  - intros l1 l2 Hl1 Hl2 Hne H1 H2.
    unfold processed_robot_txt.
    rewrite splitlines_crlf by assumption.
    apply processed_two_lines; assumption.
Qed.

Lemma processed_robot_txt_line_feeds_witness :
  no_break (lit "User-agent: *") /\ no_break (lit "Disallow: /")
  /\ lit "Disallow: /" <> []
  /\ is_comment_line (lit "User-agent: *") = false
  /\ is_comment_line (lit "Disallow: /") = false
  /\ processed_robot_txt (lit "User-agent: *" ++ 13%N :: 10%N :: lit "Disallow: /")
     = lit "User-agent: *" ++ 10%N :: lit "Disallow: /"
  /\ processed_robot_txt (lit "User-agent: *" ++ 8232%N :: lit "Disallow: /")
     = lit "User-agent: *" ++ 10%N :: lit "Disallow: /".
Proof.
  assert (H1 : no_break (lit "User-agent: *")) by (repeat constructor).
  assert (H2 : no_break (lit "Disallow: /")) by (repeat constructor).
  assert (H3 : lit "Disallow: /" <> []) by discriminate.
  split; [exact H1|]. split; [exact H2|]. split; [exact H3|].
  split; [reflexivity|]. split; [reflexivity|]. split.
  - exact (proj2 (proj2 processed_robot_txt_line_feeds) _ _ H1 H2 H3 eq_refl eq_refl).
  - refine (proj1 (proj2 processed_robot_txt_line_feeds) 8232%N _ _ _ H1 H2 H3
                  eq_refl eq_refl).
    simpl. tauto.
Defined.

Lemma splitlines_join_id (ls : list str) :
  Forall no_break ls -> last ls [0%N] <> [] ->
  splitlines (join (lit "
") ls) = ls.
Proof.
  induction 1 as [|x ls Hx Hls IH]; [reflexivity|].
  intros Hlast. destruct ls as [|y ls'].
  - simpl join. rewrite splitlines_one by assumption.
    simpl in Hlast. destruct x; [congruence | reflexivity].
  - change (join (lit "
") (x :: y :: ls')) with (x ++ lit "
" ++ join (lit "
") (y :: ls')).
    rewrite splitlines_line_feed by assumption.
    rewrite IH; [reflexivity | exact Hlast].
Qed.

(** X15: a robots text already in the form the check produces (lines without
    comment lines, joined by line feeds, the last line not empty) is handed
    to the parser unchanged. *)
Theorem processed_robot_txt_joined (ls : list str) :
  Forall no_break ls ->
  Forall (fun line => is_comment_line line = false) ls ->
  last ls [0%N] <> [] ->
  processed_robot_txt (join (lit "
") ls) = join (lit "
") ls.
Proof.
  intros Hnb Hnc Hlast. unfold processed_robot_txt.
  rewrite splitlines_join_id by assumption.
  f_equal. apply forallb_filter_id.
  apply forallb_forall. intros l Hl.
  rewrite Forall_forall in Hnc. rewrite (Hnc l Hl). reflexivity.
Qed.

(** ** The added properties on the reference instance *)

Lemma fetch_url_status_witness :
  exists r,
    exec (@fetch_url example_libraries example_url DEFAULT_USER_AGENT_MANUAL false)
         [Responded (robots_response 404 [])]
    = Some (r, [fetch_request example_url DEFAULT_USER_AGENT_MANUAL])
    /\ forall e, r = McpError e ->
         exists rest, message e = lit "Failed to fetch " ++ example_url ++ rest.
Proof.
  destruct (@fetch_url_status example_libraries example_url DEFAULT_USER_AGENT_MANUAL
              false (Responded (robots_response 404 []))) as (r & Hr & _ & He & _).
  exists r. split; [exact Hr|]. intros e Hre. exact (proj2 (He e Hre)).
Defined.

Lemma fetch_url_content_witness :
  status_code example_json < 400
  /\ exists content prefix,
       exec (@fetch_url example_libraries example_url DEFAULT_USER_AGENT_MANUAL false)
            [Responded example_json]
       = Some (Ok (content, prefix),
               [fetch_request example_url DEFAULT_USER_AGENT_MANUAL])
       /\ (prefix <> [] -> content = text example_json).
Proof.
  split; [reflexivity|].
  destruct (@fetch_url_content example_libraries example_url DEFAULT_USER_AGENT_MANUAL
              false example_json eq_refl) as (c & p & Hrun & _ & _ & Hraw).
  exists c, p. split; [exact Hrun|]. intros Hp. exact (proj1 (Hraw Hp)).
Defined.

Lemma call_tool_simplify_failed_witness :
  @Fetch_validate no_extraction_libraries example_arguments = Some example_args
  /\ url example_args <> []
  /\ exec (@check_may_autonomously_fetch_url no_extraction_libraries
             (url example_args) (user_agent_autonomous example_config))
          [Responded (robots_response 404 [])]
     = Some (Ok tt, [robots_request (lit "http://example.com/robots.txt")
                                    DEFAULT_USER_AGENT_AUTONOMOUS])
  /\ raw example_args = false
  /\ status_code example_page < 400
  /\ is_page_html (text example_page) (headers_get_content_type example_page) = true
  /\ @simple_json_content no_extraction_libraries (text example_page) = None
  /\ exec (@call_tool no_extraction_libraries example_config (lit "fetch")
             example_arguments)
          ([Responded (robots_response 404 [])] ++ [Responded example_page])
     = Some (Ok [ {| type := lit "text";
                     text_of := lit "Contents of " ++ url example_args ++ lit ":
" ++ call_tool_window (lit "<error>Page failed to be simplified from HTML</error>")
                      (start_index example_args) (max_length example_args) |} ],
             [robots_request (lit "http://example.com/robots.txt")
                             DEFAULT_USER_AGENT_AUTONOMOUS]
             ++ [fetch_request (url example_args)
                               (user_agent_autonomous example_config)]).
Proof.
  split; [reflexivity|]. split; [discriminate|].
  split; [vm_compute; reflexivity|].
  split; [reflexivity|]. split; [reflexivity|]. split; [vm_compute; reflexivity|].
  split; [reflexivity|].
  refine (proj1 (@call_tool_simplify_failed no_extraction_libraries example_config
                   (lit "fetch") example_arguments example_args
                   [Responded (robots_response 404 [])]
                   [robots_request (lit "http://example.com/robots.txt")
                                   DEFAULT_USER_AGENT_AUTONOMOUS]
                   example_page
                   eq_refl _ _ eq_refl eq_refl _ (or_introl eq_refl))).
  - discriminate.
  - vm_compute. reflexivity.
  - vm_compute. reflexivity.
Defined.

Lemma get_prompt_outcomes_witness :
  example_prompt_arguments = Some [(lit "url", example_url)]
  /\ dict_get [(lit "url", example_url)] (lit "url") = Some example_url
  /\ (exists r,
        exec (@get_prompt example_libraries example_config (lit "fetch")
                example_prompt_arguments)
             [Responded (robots_response 500 [])]
        = Some (r, [fetch_request example_url DEFAULT_USER_AGENT_MANUAL])
        /\ exists result, r = Ok result)
  /\ exec (@get_prompt example_libraries example_config (lit "fetch")
             example_prompt_arguments)
          [OtherException (lit "InvalidURL")]
     = Some (Uncaught (lit "InvalidURL"),
             [fetch_request example_url DEFAULT_USER_AGENT_MANUAL]).
Proof.
  split; [reflexivity|]. split; [reflexivity|]. split.
  - destruct (proj2 (@get_prompt_outcomes example_libraries example_config (lit "fetch")
                       example_prompt_arguments)
                    [(lit "url", example_url)] example_url
                    (Responded (robots_response 500 [])) eq_refl eq_refl)
      as (fetched & r & _ & Hrun & _ & _ & Hok & _).
    exists r. split; [exact Hrun|].
    apply Hok. left. eexists. reflexivity.
  - destruct (proj2 (@get_prompt_outcomes example_libraries example_config (lit "fetch")
                       example_prompt_arguments)
                    [(lit "url", example_url)] example_url
                    (OtherException (lit "InvalidURL")) eq_refl eq_refl)
      as (fetched & r & _ & Hrun & _ & _ & _ & Hexc).
    rewrite Hrun. rewrite (proj1 (Hexc (lit "InvalidURL")) eq_refl). reflexivity.
Defined.

Lemma robots_only_for_enforced_tool_witness :
  ignore_robots_txt ignore_config = true
  /\ all_requests (fun r => exists args,
                     @Fetch_validate example_libraries example_arguments = Some args
                     /\ r = fetch_request (url args) (user_agent_autonomous ignore_config))
                  (@call_tool example_libraries ignore_config (lit "fetch")
                     example_arguments).
Proof.
  split; [reflexivity|].
  exact (proj1 (@robots_only_for_enforced_tool example_libraries ignore_config
                  (lit "fetch") example_arguments None) eq_refl).
Defined.

Lemma processed_robot_txt_joined_witness :
  Forall no_break [lit "User-agent: *"; lit "Disallow: /private  # not a comment line"]
  /\ Forall (fun line => is_comment_line line = false)
            [lit "User-agent: *"; lit "Disallow: /private  # not a comment line"]
  /\ last [lit "User-agent: *"; lit "Disallow: /private  # not a comment line"] [0%N] <> []
  /\ processed_robot_txt (lit "User-agent: *
Disallow: /private  # not a comment line")
     = lit "User-agent: *
Disallow: /private  # not a comment line".
Proof.
  assert (H1 : Forall no_break
                 [lit "User-agent: *"; lit "Disallow: /private  # not a comment line"])
    by (repeat constructor).
  assert (H2 : Forall (fun line => is_comment_line line = false)
                 [lit "User-agent: *"; lit "Disallow: /private  # not a comment line"])
    by (repeat constructor).
  split; [exact H1|]. split; [exact H2|]. split; [discriminate|].
  apply (processed_robot_txt_joined
           [lit "User-agent: *"; lit "Disallow: /private  # not a comment line"] H1 H2).
  discriminate.
Defined.

(** ** The shape of every request *)

Section Requests.
Context {L : Libraries}.

Lemma all_requests_weaken {A} (P Q : Request -> Prop) (p : Prog A) :
  (forall r, P r -> Q r) -> all_requests P p -> all_requests Q p.
Proof.
  intros HPQ. induction p as [a|req k IH]; simpl; [trivial|].
  intros [Hreq Hk]. split; [apply HPQ, Hreq | intros o; apply IH, Hk].
Qed.

Lemma all_requests_fetch_exact (url user_agent : str) (force_raw : bool) :
  all_requests (fun r => r = fetch_request url user_agent)
               (fetch_url url user_agent force_raw).
Proof.
  unfold fetch_url. simpl. split; [reflexivity|].
  intros [response|e1 e2|x]; [|exact I|exact I].
  repeat match goal with |- context [if ?b then _ else _] => destruct b end;
    exact I.
Qed.

Lemma all_requests_check_exact (url user_agent : str) :
  all_requests (fun r => r = robots_request (get_robots_txt_url url) user_agent)
               (check_may_autonomously_fetch_url url user_agent).
Proof.
  unfold check_may_autonomously_fetch_url. simpl. split; [reflexivity|].
  intros [response|e1 e2|x]; [|exact I|exact I].
  repeat match goal with |- context [if ?b then _ else _] => destruct b end;
    exact I.
Qed.

(** X12: every request of the two handlers follows redirects.  The page is always
    fetched with the 30 second timeout; a request that passes no timeout can
    only be the robots request of the enforced check, and the prompt handler
    makes none. *)
Theorem handlers_request_shape (cfg : Config) (name : str)
  (arguments : FetchArguments) (prompt_arguments : option (list (str * str))) :
  all_requests
    (fun r => req_follow_redirects r = true
              /\ (req_timeout r = Some 30
                  \/ (req_timeout r = None /\ ignore_robots_txt cfg = false
                      /\ exists args,
                           Fetch_validate arguments = Some args
                           /\ req_url r = get_robots_txt_url (url args))))
    (call_tool cfg name arguments)
  /\ all_requests (fun r => req_follow_redirects r = true /\ req_timeout r = Some 30)
                  (get_prompt cfg name prompt_arguments).
Proof.
  split.
  - unfold call_tool.
    destruct (Fetch_validate arguments) as [args|]; [|exact I].
    destruct (negb (truthy (url args))); [exact I|].
    apply all_requests_bind.
    + destruct (ignore_robots_txt cfg); simpl negb; cbv iota; [exact I|].
      eapply all_requests_weaken; [|apply all_requests_check_exact].
      intros r ->. split; [reflexivity|]. right.
      split; [reflexivity|]. split; [reflexivity|].
      exists args. split; reflexivity.
    + intros _. apply all_requests_bind.
      * eapply all_requests_weaken; [|apply all_requests_fetch_exact].
        intros r ->. split; [reflexivity | left; reflexivity].
      * intros [content prefix]. exact I.
  - unfold get_prompt.
    destruct prompt_arguments as [d|]; [|exact I].
    destruct (dict_get d (lit "url")) as [url|]; [|exact I].
    apply all_requests_prog_bind.
    + eapply all_requests_weaken; [|apply all_requests_fetch_exact].
      intros r ->. split; reflexivity.
    + intros [[content prefix]|e|x]; exact I.
Qed.

End Requests.

(** ** [concatenate_files] *)

Section Concat.
Variable abspath : str -> str.
Variable script_path : str.
Variables target_files exclude_dirs : list str.

Lemma walk_output_empty_excluded (e : Entry) :
  forall dirpath,
    walk_output abspath script_path target_files exclude_dirs dirpath
                (empty_excluded exclude_dirs e)
    = walk_output abspath script_path target_files exclude_dirs dirpath e.
Proof.
  induction e as [n size contents | n entries IH] using Entry_nested_ind;
    intros dirpath; [reflexivity|].
  simpl. f_equal.
  - clear IH. induction entries as [|c rest IHrest]; [reflexivity|].
    simpl. rewrite IHrest. f_equal.
    destruct c as [f size contents | d sub]; [reflexivity|].
    destruct (mem_str d exclude_dirs); reflexivity.
  - induction IH as [|c rest Hc Hrest IHrest]; [reflexivity|].
    simpl. rewrite IHrest. f_equal.
    destruct c as [f size contents | d sub]; [reflexivity|].
    destruct (mem_str d exclude_dirs) eqn:Hd.
    + rewrite Hd. reflexivity.
    + specialize (Hc (os_path_join dirpath d)). simpl in Hc |- *.
      rewrite Hd. exact Hc.
Qed.

Lemma file_block_not_selected (dirpath : str) (c : Entry) :
  selected target_files c = false ->
  file_block abspath script_path target_files dirpath c = [].
Proof.
  destruct c as [f size contents | d sub]; [|discriminate].
  simpl. destruct (mem_str f target_files); [|reflexivity].
  simpl. intros Hsize. apply negb_false_iff in Hsize. rewrite Hsize.
  rewrite orb_true_r. reflexivity.
Qed.

Lemma walk_output_only_selected (e : Entry) :
  forall dirpath,
    walk_output abspath script_path target_files exclude_dirs dirpath
                (only_selected target_files e)
    = walk_output abspath script_path target_files exclude_dirs dirpath e.
Proof.
  induction e as [n size contents | n entries IH] using Entry_nested_ind;
    intros dirpath; [reflexivity|].
  simpl. f_equal.
  - clear IH. induction entries as [|c rest IHrest]; [reflexivity|].
    simpl. destruct (selected target_files c) eqn:Hsel.
    + simpl. rewrite IHrest. f_equal.
      destruct c as [f size contents | d sub]; reflexivity.
    + rewrite IHrest, file_block_not_selected by assumption. reflexivity.
  - induction IH as [|c rest Hc Hrest IHrest]; [reflexivity|].
    simpl. destruct (selected target_files c) eqn:Hsel.
    + simpl. rewrite IHrest. f_equal.
      destruct c as [f size contents | d sub]; [reflexivity|].
      destruct (mem_str d exclude_dirs) eqn:Hd.
      * simpl. rewrite Hd. reflexivity.
      * specialize (Hc (os_path_join dirpath d)). simpl in Hc |- *.
        rewrite Hd. exact Hc.
    + rewrite IHrest.
      destruct c as [f size contents | d sub]; [reflexivity | discriminate].
Qed.

End Concat.

(** X17: nothing below an excluded directory reaches the output, at any depth:
    the text written is the one written for the tree with every excluded
    directory emptied, so two trees that differ only inside excluded
    directories give the same text. *)
Theorem concatenate_files_excluded (abspath : str -> str) (script_path root_dir : str)
  (target_files exclude_dirs : option (list str)) (root root' : Entry) :
  concatenate_files abspath script_path root_dir
    (empty_excluded (or_default exclude_dirs DEFAULT_EXCLUDE_DIRS) root)
    target_files exclude_dirs
  = concatenate_files abspath script_path root_dir root target_files exclude_dirs
  /\ (empty_excluded (or_default exclude_dirs DEFAULT_EXCLUDE_DIRS) root
      = empty_excluded (or_default exclude_dirs DEFAULT_EXCLUDE_DIRS) root' ->
      concatenate_files abspath script_path root_dir root target_files exclude_dirs
      = concatenate_files abspath script_path root_dir root' target_files exclude_dirs).
Proof.
  unfold concatenate_files. split.
  - apply walk_output_empty_excluded.
  - intros Heq.
    rewrite <- (walk_output_empty_excluded _ _ _ _ root),
            <- (walk_output_empty_excluded _ _ _ _ root'), Heq.
    reflexivity.
Qed.

Lemma concatenate_files_excluded_witness :
  empty_excluded (or_default None DEFAULT_EXCLUDE_DIRS) example_tree
  = empty_excluded (or_default None DEFAULT_EXCLUDE_DIRS)
      (DirEntry (lit "repo")
         [ FileEntry (lit "pyproject.toml") 12 (inl (lit "[project]"));
           FileEntry (lit "README.md") 7 (inl (lit "# fetch"));
           DirEntry (lit ".git") [];
           DirEntry (lit "src")
             [ FileEntry (lit "__init__.py") 0 (inl []);
               FileEntry (lit "server.py") 9 (inl (lit "import os")) ] ])
  /\ concatenate_files (fun p => p) (lit "./concat.py") (lit ".") example_tree None None
     = concatenate_files (fun p => p) (lit "./concat.py") (lit ".")
         (DirEntry (lit "repo")
            [ FileEntry (lit "pyproject.toml") 12 (inl (lit "[project]"));
              FileEntry (lit "README.md") 7 (inl (lit "# fetch"));
              DirEntry (lit ".git") [];
              DirEntry (lit "src")
                [ FileEntry (lit "__init__.py") 0 (inl []);
                  FileEntry (lit "server.py") 9 (inl (lit "import os")) ] ])
         None None.
Proof.
  split; [vm_compute; reflexivity|].
  apply (proj2 (concatenate_files_excluded (fun p => p) (lit "./concat.py") (lit ".")
                  None None example_tree _)).
  vm_compute. reflexivity.
Defined.

(** X18: only target files that are not empty reach the output: the text written
    is the one written for the tree without the files whose name is no target
    or whose size is zero. *)
Theorem concatenate_files_only_selected (abspath : str -> str)
  (script_path root_dir : str) (target_files exclude_dirs : option (list str))
  (root : Entry) :
  concatenate_files abspath script_path root_dir
    (only_selected (or_default target_files DEFAULT_TARGET_FILES) root)
    target_files exclude_dirs
  = concatenate_files abspath script_path root_dir root target_files exclude_dirs.
Proof. unfold concatenate_files. apply walk_output_only_selected. Qed.

(** The run on the example tree: the target files in walk order, the
    [.git] directory, the empty file and the other files left out. *)
Example concatenate_files_example :
  concatenate_files (fun p => p) (lit "./concat.py") (lit ".") example_tree None None
  = lit "# File: ./pyproject.toml
[project]

# File: ./src/server.py
import os

".
Proof. vm_compute. reflexivity. Qed.

(** ** Arguments out of range *)

(** X16: a call without [url], with a [max_length] outside the open range from 0
    to 1000000, or with a negative [start_index] is refused with an
    invalid-parameters error, and the handler ends there: it makes no
    request.  The bounds are exclusive for [max_length]: 1000000 itself is
    refused. *)
Theorem call_tool_rejects_out_of_range {L : Libraries} (cfg : Config) (name : str)
  (arguments : FetchArguments) :
  arg_url arguments = None
  \/ (exists m, arg_max_length arguments = Some m /\ (m <= 0 \/ 1000000 <= m))
  \/ (exists s, arg_start_index arguments = Some s /\ s < 0) ->
  call_tool cfg name arguments
  = Ret (McpError {| code := INVALID_PARAMS;
                     message := validation_error arguments |}).
Proof.
  intros Hbad. unfold call_tool.
  assert (Hval : Fetch_validate arguments = None).
  { unfold Fetch_validate.
    destruct (arg_url arguments) as [u|]; [|reflexivity].
    destruct (AnyUrl u) as [u'|]; [|reflexivity].
    destruct Hbad as [Hu | [(m & -> & Hm) | (s & -> & Hs)]]; [discriminate | |].
    - simpl or_default.
      destruct (Z.ltb_spec 0 m), (Z.ltb_spec m 1000000); simpl; try reflexivity; lia.
    - simpl or_default.
      destruct (Z.leb_spec 0 s); [lia|].
      rewrite andb_false_r. reflexivity. }
  rewrite Hval. reflexivity.
Qed.

Lemma call_tool_rejects_out_of_range_witness :
  (exists m, arg_max_length {| arg_url := Some example_url;
                               arg_max_length := Some 1000000;
                               arg_start_index := None; arg_raw := None |} = Some m
             /\ (m <= 0 \/ 1000000 <= m))
  /\ @call_tool example_libraries example_config (lit "fetch")
       {| arg_url := Some example_url; arg_max_length := Some 1000000;
          arg_start_index := None; arg_raw := None |}
     = Ret (McpError {| code := INVALID_PARAMS;
                        message := lit "validation error" |}).
Proof.
  assert (H : exists m, arg_max_length {| arg_url := Some example_url;
                               arg_max_length := Some 1000000;
                               arg_start_index := None; arg_raw := None |} = Some m
             /\ (m <= 0 \/ 1000000 <= m)).
  { exists 1000000. split; [reflexivity | right; discriminate]. }
  split; [exact H|].
  apply (@call_tool_rejects_out_of_range example_libraries example_config (lit "fetch")
           {| arg_url := Some example_url; arg_max_length := Some 1000000;
              arg_start_index := None; arg_raw := None |}).
  right. left. exact H.
Defined.
